(** * certstreamScanner: the event-to-record pipeline

    A shallow embedding of [cert_monitor.py], [db_manager.py] and
    [flask_api.py], and the properties of the pipeline proved over it.

    Conventions of the embedding.
    - Python [str] values are Rocq strings.  Certificate names are ASCII
      (IDNs reach the feed in punycode), so [lower] and [strip] are the
      ASCII restrictions of the Python methods.
    - A decoded JSON event is a value of [json]; a Python [dict] decoded
      from JSON is an association list searched from the front.  A JSON
      integer is a [JInt]; a JSON number with a fraction or an exponent
      decodes to a Python [float], a [JFloat] that carries its value as
      an exact rational and the text [str] renders it as.
    - A raised exception is the [Raise] result of the [exc] type.
    - The MongoDB collection carries a unique index on [domain], so it is
      a finite map from the domain to its document.  A store operation
      may fail: each call receives the outcome the store gives it.
    - [datetime.utcnow()] is an input of each function that reads it.
    - [datetime.fromtimestamp] is a parameter: a partial function from a
      rational number of seconds to a [datetime]; the float division
      [x / 1000.0] is modelled exactly. *)

From Stdlib Require Import Ascii QArith Qround.
From stdpp Require Import gmap strings list fin_maps pretty sorting.

Set Warnings "-register-all".

Local Open Scope string_scope.
Local Open Scope list_scope.

(** ** Python string methods *)

Module PyStr.

(** [s.startswith(p)] *)
Fixpoint startswith (p s : string) : bool :=
  match p, s with
  | EmptyString, _ => true
  | String a p', String b s' => if decide (a = b) then startswith p' s' else false
  | String _ _, EmptyString => false
  end.

(** [s[n:]] for [0 <= n] *)
Fixpoint drop_chars (n : nat) (s : string) : string :=
  match n, s with
  | O, _ => s
  | S n', String _ s' => drop_chars n' s'
  | S _, EmptyString => EmptyString
  end.

(** [s.endswith(p)] *)
Definition endswith (p s : string) : bool :=
  if decide (String.length p ≤ String.length s)%nat
  then bool_decide (drop_chars (String.length s - String.length p)%nat s = p)
  else false.

(** [p in s] on strings: [p] occurs as a contiguous substring of [s]. *)
Fixpoint contains (p s : string) : bool :=
  startswith p s ||
  match s with
  | EmptyString => false
  | String _ s' => contains p s'
  end.

(** The ASCII characters for which [str.isspace] holds: tab, line feed,
    vertical tab, form feed, carriage return, the four separators
    0x1c-0x1f, and the space. *)
Definition isspace (c : ascii) : bool :=
  let n := nat_of_ascii c in
  ((9 <=? n)%nat && (n <=? 13)%nat) || ((28 <=? n)%nat && (n <=? 32)%nat).

(** [s.lstrip()] *)
Fixpoint lstrip_space (s : string) : string :=
  match s with
  | EmptyString => EmptyString
  | String c s' => if isspace c then lstrip_space s' else s
  end.

(** [s.rstrip()] *)
Fixpoint rstrip_space (s : string) : string :=
  match s with
  | EmptyString => EmptyString
  | String c s' =>
      match rstrip_space s' with
      | EmptyString => if isspace c then EmptyString else String c EmptyString
      | r => String c r
      end
  end.

(** [s.strip()] *)
Definition strip (s : string) : string := rstrip_space (lstrip_space s).

(** [s.lstrip('.')]: the leading dots are removed. *)
Fixpoint lstrip_dot (s : string) : string :=
  match s with
  | EmptyString => EmptyString
  | String c s' => if decide (c = "."%char) then lstrip_dot s' else s
  end.

Definition lower_char (c : ascii) : ascii :=
  let n := nat_of_ascii c in
  if ((65 <=? n)%nat && (n <=? 90)%nat)%bool then ascii_of_nat (n + 32) else c.

(** [s.lower()] *)
Fixpoint lower (s : string) : string :=
  match s with
  | EmptyString => EmptyString
  | String c s' => String (lower_char c) (lower s')
  end.

(** [s.split('.')]: never the empty list; [''.split('.') == ['']]. *)
Fixpoint split_dot (s : string) : list string :=
  match s with
  | EmptyString => [EmptyString]
  | String c s' =>
      if decide (c = "."%char) then EmptyString :: split_dot s'
      else match split_dot s' with
           | h :: t => String c h :: t
           | [] => [String c EmptyString]
           end
  end.

(** ['.'.join(l)] *)
Fixpoint join_dot (l : list string) : string :=
  match l with
  | [] => EmptyString
  | [x] => x
  | x :: r => x +:+ "." +:+ join_dot r
  end.

(** [l[-n:]] for [0 < n]: the last [n] elements, the whole list when
    it is shorter. *)
Definition last_n {A} (n : nat) (l : list A) : list A :=
  drop (length l - n)%nat l.

End PyStr.

(** ** Configuration ([config.json], read once by [CertMonitor.__init__]) *)

Record Config := {
  israeli_tld_suffixes : list string;
  exclude_suffixes : list string;
  blacklisted_domains : list string
}.

(** ** Domain filter and base-domain extraction ([cert_monitor.py]) *)

(** [CertMonitor._clean_domain] *)
Definition _clean_domain (domain : string) : string :=
  let domain := if PyStr.startswith "*." domain then PyStr.drop_chars 2 domain else domain in
  PyStr.lower (PyStr.strip domain).

(** [CertMonitor._is_target_domain] *)
Definition _is_target_domain (cfg : Config) (domain_lower : string) : bool :=
  let is_israeli_tld :=
    existsb (λ tld, PyStr.endswith tld domain_lower) (israeli_tld_suffixes cfg) in
  if negb is_israeli_tld then false
  else
    let is_excluded :=
      existsb (λ suffix, PyStr.contains suffix domain_lower) (exclude_suffixes cfg) in
    if is_excluded then false
    else
      let is_blacklisted := bool_decide (domain_lower ∈ blacklisted_domains cfg) in
      if is_blacklisted then false
      else true.

(** The [for suffix in self.israeli_tld_suffixes] loop of
    [_extract_base_domain]: the first suffix the domain ends with and
    that leaves enough labels decides; [None] when the loop falls
    through. *)
Fixpoint base_loop (domain : string) (parts : list string) (suffixes : list string)
  : option string :=
  match suffixes with
  | [] => None
  | suffix :: rest =>
      if PyStr.endswith suffix domain then
        let suffix_parts := PyStr.split_dot (PyStr.lstrip_dot suffix) in
        let needed_parts := (length suffix_parts + 1)%nat in
        if decide (needed_parts ≤ length parts)%nat
        then Some (PyStr.join_dot (PyStr.last_n needed_parts parts))
        else base_loop domain parts rest
      else base_loop domain parts rest
  end.

(** [CertMonitor._extract_base_domain] *)
Definition _extract_base_domain (cfg : Config) (domain : string) : string :=
  let parts := PyStr.split_dot domain in
  match base_loop domain parts (israeli_tld_suffixes cfg) with
  | Some base => base
  | None => domain
  end.

(** ** Decoded events and Python's dynamic operations on them *)

Inductive pyerr := TypeError | AttributeError | IndexError | KeyError.

Inductive exc (A : Type) : Type :=
| Return (a : A)
| Raise (e : pyerr).
Arguments Return {A} a.
Arguments Raise {A} e.

Global Instance exc_ret : MRet exc := λ A a, Return a.
Global Instance exc_bind : MBind exc := λ A B k m,
  match m with
  | Return a => k a
  | Raise e => Raise e
  end.

(** A decoded JSON value.  A float is kept as its value, an exact
    rational, together with the text [str] gives for it (for
    [1700000000.0] the value 1700000000 and the text
    ['1700000000.0']); the text is a function of the value in Python,
    and the pairs that cannot arise are not excluded. *)
Inductive json :=
| JNull
| JBool (b : bool)
| JInt (z : Z)
| JFloat (value : Q) (repr : string)
| JStr (s : string)
| JList (l : list json)
| JObj (kv : list (string * json)).

Module Py.

Fixpoint assoc (k : string) (kv : list (string * json)) : option json :=
  match kv with
  | [] => None
  | (k', v) :: rest => if decide (k = k') then Some v else assoc k rest
  end.

(** [o.get(k, dflt)]: only a dict has the method. *)
Definition get (o : json) (k : string) (dflt : json) : exc json :=
  match o with
  | JObj kv => Return (default dflt (assoc k kv))
  | _ => Raise AttributeError
  end.

(** Truth value of an object, as [if x:] and [x and ...] test it. *)
Definition truthy (v : json) : bool :=
  match v with
  | JNull => false
  | JBool b => b
  | JInt z => negb (z =? 0)%Z
  | JFloat value _ => negb (Qeq_bool value 0)
  | JStr s => negb (bool_decide (s = ""))
  | JList l => negb (bool_decide (l = []))
  | JObj kv => negb (bool_decide (kv = []))
  end.

(** [len(x)] *)
Definition len (v : json) : exc nat :=
  match v with
  | JStr s => Return (String.length s)
  | JList l => Return (length l)
  | JObj kv => Return (length kv)
  | _ => Raise TypeError
  end.

(** [x[0]].  The keys of a decoded dict are strings, so the integer key
    [0] is never found in one. *)
Definition index0 (v : json) : exc json :=
  match v with
  | JList (h :: _) => Return h
  | JList [] => Raise IndexError
  | JStr (String c _) => Return (JStr (String c EmptyString))
  | JStr EmptyString => Raise IndexError
  | JObj _ => Raise KeyError
  | _ => Raise TypeError
  end.

Fixpoint chars (s : string) : list json :=
  match s with
  | EmptyString => []
  | String c s' => JStr (String c EmptyString) :: chars s'
  end.

(** The items a [for x in v] loop visits. *)
Definition iter (v : json) : exc (list json) :=
  match v with
  | JList l => Return l
  | JStr s => Return (chars s)
  | JObj kv => Return (JStr <$> kv.*1)
  | _ => Raise TypeError
  end.

(** [str(n)] of an integer: its decimal digits, after a minus sign when
    it is negative. *)
Definition str_int (n : Z) : string := pretty n.

End Py.

(** ** Event normalizer ([CertMonitor._format_message]) *)

Record CertEvent (datetime : Type) := {
  domain_names : json;
  time_issued : datetime;
  issuer_cn : json;
  log_name : json;
  cert_id : json
}.
Arguments domain_names {datetime} _.
Arguments time_issued {datetime} _.
Arguments issuer_cn {datetime} _.
Arguments log_name {datetime} _.
Arguments cert_id {datetime} _.

Section Normalizer.
Context {datetime : Type}.
(** [datetime.datetime.fromtimestamp] of a number of seconds; [None]
    when the conversion raises (a value out of the platform's range, or
    too large for a float). *)
Variable fromtimestamp : Q → option datetime.

(** The body of the [try] block, for a truthy [not_before]; [None]
    when an exception leaves it.  The test is on the number of
    characters of [str(x)], for an integer and for a float alike.  A
    [bool] is an [int] in Python ([True] is 1, [str(True)] has four
    characters); dividing a string, a list or a dict by a float, or
    converting one, raises [TypeError]. *)
Definition convert_not_before (v : json) : option datetime :=
  match v with
  | JInt n =>
      if decide (10 < String.length (Py.str_int n))%nat
      then fromtimestamp (n # 1000)
      else fromtimestamp (inject_Z n)
  | JFloat value repr =>
      if decide (10 < String.length repr)%nat
      then fromtimestamp (value / 1000)
      else fromtimestamp value
  | JBool b => fromtimestamp (inject_Z (if b then 1 else 0))
  | _ => None
  end.

(** Lines 127-136: the issuance time of the event. *)
Definition issued_time (now : datetime) (not_before_timestamp : json) : datetime :=
  let time_issued := now in
  if Py.truthy not_before_timestamp then
    match convert_not_before not_before_timestamp with
    | Some t => t
    | None => time_issued
    end
  else time_issued.

(** Lines 139-142: the issuer common name. *)
Definition issuer_of (data : json) : exc json :=
  chain ← Py.get data "chain" JNull;
  if Py.truthy chain then
    n ← Py.len chain;
    if decide (0 < n)%nat then
      first ← Py.index0 chain;
      subject ← Py.get first "subject" (JObj []);
      Py.get subject "CN" (JStr "N/A")
    else Return (JStr "N/A")
  else Return (JStr "N/A").

(** Line 144: the log name. *)
Definition log_name_of (data : json) : exc json :=
  seen_in ← Py.get data "seen_in" (JList [JObj []]);
  first ← Py.index0 seen_in;
  Py.get first "name" (JStr "N/A").

(** [CertMonitor._format_message]; [now] is the value of
    [datetime.datetime.utcnow()]. *)
Definition _format_message (now : datetime) (message : json) : exc (CertEvent datetime) :=
  data ← Py.get message "data" (JObj []);
  cert ← Py.get data "leaf_cert" (JObj []);
  domain_names ← Py.get cert "all_domains" (JList []);
  not_before_timestamp ← Py.get cert "not_before" JNull;
  let time_issued := issued_time now not_before_timestamp in
  issuer_cn ← issuer_of data;
  log_name ← log_name_of data;
  cert_id ← Py.get cert "serial_number" (JStr "N/A");
  Return {| domain_names := domain_names;
            time_issued := time_issued;
            issuer_cn := issuer_cn;
            log_name := log_name;
            cert_id := cert_id |}.

End Normalizer.

(** ** The document store ([db_manager.py]) *)

(** A document of the collection.  [save_domain] writes
    [list(set(...))] into [subdomains]: a list without duplicates in an
    order Python leaves open, read back only through [set(...)]; the
    field is the set of its members. *)
Record DomainRecord (datetime : Type) := {
  doc_domain : string;
  doc_subdomains : gset string;
  doc_time_issued : datetime;
  doc_issuer_cn : json;
  doc_log_name : json;
  doc_cert_id : json;
  doc_last_seen : datetime
}.
Arguments doc_domain {datetime} _.
Arguments doc_subdomains {datetime} _.
Arguments doc_time_issued {datetime} _.
Arguments doc_issuer_cn {datetime} _.
Arguments doc_log_name {datetime} _.
Arguments doc_cert_id {datetime} _.
Arguments doc_last_seen {datetime} _.

(** What the store answers to one operation: it carries it out, or the
    driver raises an exception with a message and changes nothing. *)
Inductive outcome := Done | Fails (msg : string).

(** The collection and what the process has printed so far. *)
Record State (datetime : Type) := {
  collection : gmap string (DomainRecord datetime);
  stdout : list string
}.
Arguments collection {datetime} _.
Arguments stdout {datetime} _.

(** The environment of one [save_domain] call: the outcomes of its read
    and of its write, and the value of [datetime.utcnow()]. *)
Record SaveEnv (datetime : Type) := {
  find_one_outcome : outcome;
  write_outcome : outcome;
  utcnow : datetime
}.
Arguments find_one_outcome {datetime} _.
Arguments write_outcome {datetime} _.
Arguments utcnow {datetime} _.

Section Store.
Context {datetime : Type}.

Definition print (line : string) (st : State datetime) : State datetime :=
  {| collection := collection st; stdout := stdout st ++ [line] |}.

Definition write (c : gmap string (DomainRecord datetime)) (st : State datetime)
  : State datetime :=
  {| collection := c; stdout := stdout st |}.

(** The [except Exception as e] clause of [save_domain]. *)
Definition save_failed (domain msg : string) (st : State datetime)
  : bool * State datetime :=
  (false, print ("Error saving domain " +:+ domain +:+ ": " +:+ msg) st).

(** [DBManager.save_domain] *)
Definition save_domain (env : SaveEnv datetime) (domain : string)
    (subdomains : list string) (time_issued : datetime)
    (issuer_cn log_name cert_id : json) (st : State datetime)
  : bool * State datetime :=
  match find_one_outcome env with
  | Fails msg => save_failed domain msg st
  | Done =>
      match collection st !! domain with
      | Some existing =>
          let existing_subdomains := doc_subdomains existing in
          let new_subdomains := existing_subdomains ∪ list_to_set subdomains in
          match write_outcome env with
          | Fails msg => save_failed domain msg st
          | Done =>
              (true,
               write (<[domain :=
                         {| doc_domain := doc_domain existing;
                            doc_subdomains := new_subdomains;
                            doc_time_issued := time_issued;
                            doc_issuer_cn := issuer_cn;
                            doc_log_name := log_name;
                            doc_cert_id := cert_id;
                            doc_last_seen := utcnow env |}]> (collection st)) st)
          end
      | None =>
          let document :=
            {| doc_domain := domain;
               doc_subdomains := list_to_set subdomains;
               doc_time_issued := time_issued;
               doc_issuer_cn := issuer_cn;
               doc_log_name := log_name;
               doc_cert_id := cert_id;
               doc_last_seen := utcnow env |} in
          match write_outcome env with
          | Fails msg => save_failed domain msg st
          | Done => (true, write (<[domain := document]> (collection st)) st)
          end
      end
  end.

(** [isoformat] of a [datetime], and the order of two of them. *)
Variable isoformat : datetime → string.
Variable dt_leb : datetime → datetime → bool.

(** [.sort("time_issued", -1)]: most recently issued first. *)
Fixpoint insert_desc (d : DomainRecord datetime) (l : list (DomainRecord datetime))
  : list (DomainRecord datetime) :=
  match l with
  | [] => [d]
  | x :: r =>
      if dt_leb (doc_time_issued x) (doc_time_issued d) then d :: l
      else x :: insert_desc d r
  end.

Definition sort_desc (l : list (DomainRecord datetime)) : list (DomainRecord datetime) :=
  foldr insert_desc [] l.

(** A document as [get_all_domains] serialises it: [_id] projected
    away, both [datetime] fields in ISO format. *)
Definition render (d : DomainRecord datetime) : json :=
  JObj [("domain", JStr (doc_domain d));
        ("subdomains", JList (JStr <$> elements (doc_subdomains d)));
        ("time_issued", JStr (isoformat (doc_time_issued d)));
        ("issuer_cn", doc_issuer_cn d);
        ("log_name", doc_log_name d);
        ("cert_id", doc_cert_id d);
        ("last_seen", JStr (isoformat (doc_last_seen d)))].

(** [DBManager.get_all_domains].  The JSON text it returns is
    identified with the value it encodes ([json.loads] inverts
    [json.dumps]); [find_outcome] is what the store answers to the
    scan. *)
Definition get_all_domains (find_outcome : outcome) (st : State datetime)
  : json * State datetime :=
  match find_outcome with
  | Done =>
      let domains := sort_desc (snd <$> map_to_list (collection st)) in
      (JList (render <$> domains), st)
  | Fails msg =>
      (JObj [("error", JStr msg)], print ("Error retrieving domains: " +:+ msg) st)
  end.

End Store.

(** ** The read service ([flask_api.py]) *)

Record Response := {
  status : Z;
  body : json
}.

Definition exception_str (e : pyerr) : string :=
  match e with
  | TypeError => "TypeError"
  | AttributeError => "AttributeError"
  | IndexError => "IndexError"
  | KeyError => "KeyError"
  end.

Section ReadService.
Context {datetime : Type}.
Variable isoformat : datetime → string.
Variable dt_leb : datetime → datetime → bool.

(** [get_domains], the handler of [GET /api/domains]. *)
Definition get_domains (find_outcome : outcome) (st : State datetime)
  : Response * State datetime :=
  let '(domains, st') := get_all_domains isoformat dt_leb find_outcome st in
  match Py.len domains with
  | Return count =>
      ({| status := 200;
          body := JObj [("success", JBool true);
                        ("count", JInt (Z.of_nat count));
                        ("data", domains)] |}, st')
  | Raise e =>
      ({| status := 500;
          body := JObj [("success", JBool false);
                        ("error", JStr (exception_str e))] |}, st')
  end.

(** [health_check], the handler of [GET /api/health]. *)
Definition health_check : Response :=
  {| status := 200;
     body := JObj [("status", JStr "healthy"); ("service", JStr "Domain Monitor API")] |}.

End ReadService.

(** ** The ingestion callback ([CertMonitor.process_certificate]) *)

(** [valid_domains]: a Python dict from a base domain to the list of its
    subdomains, in insertion order. *)
Module Dict.

Definition t := list (string * list string).

(** [k in d] *)
Definition mem (k : string) (d : t) : bool := bool_decide (k ∈ d.*1).

(** [d[k]] *)
Fixpoint get (k : string) (d : t) : option (list string) :=
  match d with
  | [] => None
  | (k', v) :: rest => if decide (k = k') then Some v else get k rest
  end.

(** [d[k].append(x)] for a key of [d] *)
Fixpoint append_to (k x : string) (d : t) : t :=
  match d with
  | [] => []
  | (k', v) :: rest =>
      if decide (k = k') then (k', v ++ [x]) :: rest
      else (k', v) :: append_to k x rest
  end.

End Dict.

Section Pipeline.
Context {datetime : Type}.
Variable cfg : Config.
Variable fromtimestamp : Q → option datetime.

(** One turn of the [for raw_domain in data['domain_names']] loop.
    An item that is not a string has no [startswith]. *)
Definition collect_step (valid_domains : Dict.t) (raw_domain : json) : exc Dict.t :=
  match raw_domain with
  | JStr raw =>
      let clean := _clean_domain raw in
      if negb (_is_target_domain cfg clean) then Return valid_domains
      else
        let base := _extract_base_domain cfg clean in
        let valid_domains :=
          if Dict.mem base valid_domains then valid_domains
          else valid_domains ++ [(base, [])] in
        if decide (clean ≠ base)
        then Return (Dict.append_to base clean valid_domains)
        else Return valid_domains
  | _ => Raise AttributeError
  end.

Fixpoint collect (valid_domains : Dict.t) (items : list json) : exc Dict.t :=
  match items with
  | [] => Return valid_domains
  | raw_domain :: rest =>
      valid_domains ← collect_step valid_domains raw_domain;
      collect valid_domains rest
  end.

(** The [for base_domain, subdomains in valid_domains.items()] loop.
    [save_domain] catches every exception itself and its result is
    not looked at, so the [except] clause of the loop is never
    entered and the line [[+] Saved] is printed after each call. *)
Fixpoint save_all (env : string → SaveEnv datetime) (data : CertEvent datetime)
    (valid_domains : Dict.t) (st : State datetime) : State datetime :=
  match valid_domains with
  | [] => st
  | (base_domain, subdomains) :: rest =>
      let '(_, st) :=
        save_domain (env base_domain) base_domain subdomains
          (time_issued data) (issuer_cn data) (log_name data) (cert_id data) st in
      let st :=
        print ("[+] Saved: " +:+ base_domain +:+ " with "
               +:+ pretty (length subdomains) +:+ " subdomain(s)") st in
      save_all env data rest st
  end.

Definition is_certificate_update (message_type : json) : bool :=
  match message_type with
  | JStr s => bool_decide (s = "certificate_update")
  | _ => false
  end.

(** The first half of [process_certificate]: the event normalised and
    its names grouped by base domain; [None] for a message that is
    not a certificate update. *)
Definition filtered_batch (now : datetime) (message : json)
  : exc (option (CertEvent datetime * Dict.t)) :=
  message_type ← Py.get message "message_type" JNull;
  if negb (is_certificate_update message_type) then Return None
  else
    data ← _format_message fromtimestamp now message;
    items ← Py.iter (domain_names data);
    valid_domains ← collect [] items;
    Return (Some (data, valid_domains)).

(** [CertMonitor.process_certificate]: [now] is the clock read by
    [_format_message], [env] what the store and the clock answer to
    the save of each base domain.  An exception leaves the callback
    before anything is saved. *)
Definition process_certificate (now : datetime) (env : string → SaveEnv datetime)
    (message : json) (st : State datetime) : exc unit * State datetime :=
  match filtered_batch now message with
  | Raise e => (Raise e, st)
  | Return None => (Return (), st)
  | Return (Some (data, valid_domains)) =>
      (Return (), save_all env data valid_domains st)
  end.

End Pipeline.

(** ** Notions the properties are stated with *)

Section Notions.
Context {datetime : Type}.

(** The subdomain set the index holds for a base domain; empty while
    the domain has no record. *)
Definition subdomains_of (st : State datetime) (domain : string) : gset string :=
  match collection st !! domain with
  | Some r => doc_subdomains r
  | None => ∅
  end.

(** One call of [save_domain] with all its arguments. *)
Record SaveCall := {
  call_env : SaveEnv datetime;
  call_domain : string;
  call_subdomains : list string;
  call_time_issued : datetime;
  call_issuer_cn : json;
  call_log_name : json;
  call_cert_id : json
}.

Definition run_save (st : State datetime) (c : SaveCall) : State datetime :=
  snd (save_domain (call_env c) (call_domain c) (call_subdomains c)
         (call_time_issued c) (call_issuer_cn c) (call_log_name c) (call_cert_id c) st).

(** A sequence of merges, applied in order. *)
Definition run_saves (calls : list SaveCall) (st : State datetime) : State datetime :=
  foldl run_save st calls.

(** A store that carries out both operations, with the clock at [t]. *)
Definition working (t : datetime) : SaveEnv datetime :=
  {| find_one_outcome := Done; write_outcome := Done; utcnow := t |}.

Definition with_last_seen (t : datetime) (r : DomainRecord datetime) : DomainRecord datetime :=
  {| doc_domain := doc_domain r;
     doc_subdomains := doc_subdomains r;
     doc_time_issued := doc_time_issued r;
     doc_issuer_cn := doc_issuer_cn r;
     doc_log_name := doc_log_name r;
     doc_cert_id := doc_cert_id r;
     doc_last_seen := t |}.

End Notions.
Arguments SaveCall datetime : clear implicits.

(** The number of decimal digits of an integer, its sign left out. *)
Definition decimal_digit_length (n : Z) : nat :=
  String.length (pretty (Z.abs_N n)).

(** The configuration of the examples: the suffix [.co.il], nothing
    excluded, nothing blacklisted. *)
Definition cfg_co_il : Config :=
  {| israeli_tld_suffixes := [".co.il"]; exclude_suffixes := []; blacklisted_domains := [] |}.


(** No base domain of a batch is listed among its own subdomains. *)
Definition apex_free (d : Dict.t) : Prop :=
  ∀ b subs, (b, subs) ∈ d → b ∉ subs.

Section MergeNotions.
Context {datetime : Type}.

(** The message of the exception a [save_domain] call meets in this
    environment, if it meets one: the read comes before the write. *)
Definition failure_of (env : SaveEnv datetime) : option string :=
  match find_one_outcome env with
  | Fails msg => Some msg
  | Done =>
      match write_outcome env with
      | Fails msg => Some msg
      | Done => None
      end
  end.

(** The index holds a record for [b] that contains the subdomains [S]
    and carries the metadata of the event [data]. *)
Definition merged (data : CertEvent datetime) (b : string) (S : gset string)
    (st : State datetime) : Prop :=
  ∃ r, collection st !! b = Some r
       ∧ S ⊆ doc_subdomains r
       ∧ doc_time_issued r = time_issued data
       ∧ doc_issuer_cn r = issuer_cn data
       ∧ doc_log_name r = log_name data
       ∧ doc_cert_id r = cert_id data.

(** The line [save_domain] prints when it catches an exception. *)
Definition error_line (domain msg : string) : string :=
  "Error saving domain " +:+ domain +:+ ": " +:+ msg.

End MergeNotions.


(** A certificate update naming [example.co.il] whose [seen_in] field
    is present with the given value. *)
Definition event_seen_in (seen_in : json) : json :=
  JObj [("message_type", JStr "certificate_update");
        ("data", JObj [("leaf_cert", JObj [("all_domains", JList [JStr "example.co.il"])]);
                       ("seen_in", seen_in)])].

(** A certificate update naming [example.co.il] with the given
    [not_before] and nothing else. *)
Definition event_not_before (not_before : json) : json :=
  JObj [("message_type", JStr "certificate_update");
        ("data", JObj [("leaf_cert", JObj [("all_domains", JList [JStr "example.co.il"]);
                                           ("not_before", not_before)])])].

(** A certificate update that carries the given names and nothing
    else. *)
Definition event_names (names : list string) : json :=
  JObj [("message_type", JStr "certificate_update");
        ("data", JObj [("leaf_cert", JObj [("all_domains", JList (JStr <$> names))])])].

(** The empty index, with instants counted as rational seconds. *)
Definition empty_index : State Q := {| collection := ∅; stdout := [] |}.

(** The normalised form of [event_names]: no timestamp, no chain, no
    log, no serial. *)
Definition names_only {datetime : Type} (now : datetime) (names : list string)
  : CertEvent datetime :=
  {| domain_names := JList (JStr <$> names);
     time_issued := now;
     issuer_cn := JStr "N/A";
     log_name := JStr "N/A";
     cert_id := JStr "N/A" |}.

(** A store that fails every operation on [a.co.il] and works for the
    other domains. *)
Definition env_a_down (domain : string) : SaveEnv Q :=
  if decide (domain = "a.co.il")
  then {| find_one_outcome := Fails "connection refused";
          write_outcome := Done; utcnow := 7%Q |}
  else working 7%Q.

(** The items of a name list that are strings. *)
Definition is_str (v : json) : bool :=
  match v with
  | JStr _ => true
  | _ => false
  end.

Section BatchNotions.
Variable cfg : Config.

(** Every entry of the batch comes from the names [R]: its base is the
    base of a surviving name, and each of its subdomains is a surviving
    cleaned name with that base, different from it. *)
Definition batch_sound (R : string → Prop) (vd : Dict.t) : Prop :=
  ∀ b subs, (b, subs) ∈ vd →
    (∃ raw, R raw ∧ _is_target_domain cfg (_clean_domain raw) = true
            ∧ _extract_base_domain cfg (_clean_domain raw) = b)
    ∧ (∀ s, s ∈ subs →
         ∃ raw, R raw ∧ _clean_domain raw = s
                ∧ _is_target_domain cfg s = true
                ∧ _extract_base_domain cfg s = b ∧ s ≠ b).

(** Every surviving name among [R] is in the batch: its base has an
    entry, which lists the cleaned name unless it is the base itself. *)
Definition batch_complete (R : string → Prop) (vd : Dict.t) : Prop :=
  ∀ raw, R raw → _is_target_domain cfg (_clean_domain raw) = true →
    ∃ subs, (_extract_base_domain cfg (_clean_domain raw), subs) ∈ vd
            ∧ (_clean_domain raw ≠ _extract_base_domain cfg (_clean_domain raw) →
               _clean_domain raw ∈ subs).

End BatchNotions.

Section IndexNotions.
Context {datetime : Type}.

(** Every document is filed under its own [domain] field. *)
Definition well_keyed (st : State datetime) : Prop :=
  ∀ k r, collection st !! k = Some r → doc_domain r = k.

End IndexNotions.

(** The line [process_certificate] prints after the save of an entry. *)
Definition saved_line (base_domain : string) (subdomains : list string) : string :=
  "[+] Saved: " +:+ base_domain +:+ " with "
  +:+ pretty (length subdomains) +:+ " subdomain(s)".

(** A message of another type. *)
Definition heartbeat : json := JObj [("message_type", JStr "heartbeat")].

(** The shapes of the optional [chain] and [seen_in] fields that
    [_format_message] reads without raising: a chain that is missing,
    falsy, or a list whose first entry is an object with no [subject]
    or an object for it; a log list that is missing, or a list whose
    first entry is an object. *)
Definition chain_ok (chain : option json) : bool :=
  match chain with
  | None => true
  | Some (JList (JObj first :: _)) =>
      match Py.assoc "subject" first with
      | None | Some (JObj _) => true
      | Some _ => false
      end
  | Some v => negb (Py.truthy v)
  end.

Definition seen_in_ok (seen_in : option json) : bool :=
  match seen_in with
  | None | Some (JList (JObj _ :: _)) => true
  | Some _ => false
  end.

(** The issuer and the log name such fields give. *)
Definition issuer_value (chain : option json) : json :=
  match chain with
  | Some (JList (JObj first :: _)) =>
      match Py.assoc "subject" first with
      | Some (JObj subject) => default (JStr "N/A") (Py.assoc "CN" subject)
      | _ => JStr "N/A"
      end
  | _ => JStr "N/A"
  end.

Definition log_name_value (seen_in : option json) : json :=
  match seen_in with
  | Some (JList (JObj first :: _)) => default (JStr "N/A") (Py.assoc "name" first)
  | _ => JStr "N/A"
  end.

(** The order of the answer of the read service: every document is
    issued no earlier than the one after it. *)
Definition newest_first {datetime : Type} (dt_leb : datetime → datetime → bool)
    (a b : DomainRecord datetime) : Prop :=
  dt_leb (doc_time_issued b) (doc_time_issued a) = true.

(** An index of two records, [a.co.il] issued at 1 and [b.co.il] at 2. *)
Definition two_records : State Q :=
  {| collection :=
       <["a.co.il" := {| doc_domain := "a.co.il"; doc_subdomains := ∅;
                         doc_time_issued := 1%Q; doc_issuer_cn := JStr "N/A";
                         doc_log_name := JStr "N/A"; doc_cert_id := JStr "N/A";
                         doc_last_seen := 3%Q |}]>
       (<["b.co.il" := {| doc_domain := "b.co.il"; doc_subdomains := ∅;
                          doc_time_issued := 2%Q; doc_issuer_cn := JStr "N/A";
                          doc_log_name := JStr "N/A"; doc_cert_id := JStr "N/A";
                          doc_last_seen := 3%Q |}]> ∅);
     stdout := [] |}.

(** A value that is a dict. *)
Definition is_obj (v : json) : bool :=
  match v with
  | JObj _ => true
  | _ => false
  end.

(** * Properties *)

Example clean_ex : _clean_domain "*.Sub.Example.CO.il " = "sub.example.co.il".
Proof. vm_compute. reflexivity. Qed.

Example str_int_pos : Py.str_int 1700000000 = "1700000000".
Proof. vm_compute. reflexivity. Qed.

Example str_int_neg : Py.str_int (-42) = "-42".
Proof. vm_compute. reflexivity. Qed.

Example str_int_zero : Py.str_int 0 = "0".
Proof. vm_compute. reflexivity. Qed.

(** ** The merge engine *)

Section MergeProperties.
Context {datetime : Type}.
Implicit Types (st : State datetime) (c : SaveCall datetime).

Lemma union_twice (A B : gset string) : A ∪ B ∪ B = A ∪ B.
Proof. by rewrite <-(assoc_L (∪)), (idemp_L (∪)). Qed.

(** A single [save_domain] never shrinks the subdomain set of any
    domain, whatever the store answers. *)
Lemma save_domain_grows env domain subs ti icn ln cid st d :
  subdomains_of st d ⊆
  subdomains_of (snd (save_domain env domain subs ti icn ln cid st)) d.
Proof.
  unfold save_domain, save_failed, subdomains_of.
  destruct (find_one_outcome env); [|done].
  destruct (collection st !! domain) as [existing|] eqn:Hex;
    (destruct (write_outcome env); [|done]); simpl;
    (destruct (decide (domain = d)) as [->|Hne];
      [rewrite lookup_insert_eq, Hex; simpl; set_solver
      |rewrite lookup_insert_ne; done]).
Qed.

Lemma run_saves_grows calls st d :
  subdomains_of st d ⊆ subdomains_of (run_saves calls st) d.
Proof.
  revert st. induction calls as [|c calls IH]; intros st; [done|].
  simpl. etrans; [|apply IH]. apply save_domain_grows.
Qed.

(** C3. For every base domain and every sequence of merges, the
    subdomain set stored after one more merge (and hence after any
    number of further merges) is a superset of the set stored before:
    a merge adds members and never removes one. *)
Theorem subdomains_monotonic (calls more : list (SaveCall datetime)) c st d :
  subdomains_of (run_saves calls st) d ⊆ subdomains_of (run_saves (calls ++ [c]) st) d
  ∧ subdomains_of (run_saves calls st) d ⊆ subdomains_of (run_saves (calls ++ more) st) d.
Proof.
  unfold run_saves. rewrite !foldl_app. split.
  - apply (run_saves_grows [c]).
  - apply (run_saves_grows more).
Qed.

(** C4. Merging the same entry twice on a working store gives the
    record that merging it once gives: the second call leaves the
    subdomain set as the first left it, the four metadata fields are
    the values of the (second) call, and only [last_seen] is
    refreshed to the clock of the second call; with the clock
    unchanged the two indexes are equal. *)
Theorem merge_idempotent t1 t2 domain subs ti icn ln cid st :
  let st1 := snd (save_domain (working t1) domain subs ti icn ln cid st) in
  let st2 := snd (save_domain (working t2) domain subs ti icn ln cid st1) in
  ∃ r1 r2,
    collection st1 !! domain = Some r1
    ∧ collection st2 !! domain = Some r2
    ∧ doc_subdomains r2 = doc_subdomains r1
    ∧ doc_time_issued r2 = ti ∧ doc_issuer_cn r2 = icn
    ∧ doc_log_name r2 = ln ∧ doc_cert_id r2 = cid
    ∧ r2 = with_last_seen t2 r1
    ∧ (∀ d, d ≠ domain → collection st2 !! d = collection st1 !! d)
    ∧ (t2 = t1 → collection st2 = collection st1).
Proof.
  intros st1 st2. subst st2 st1. unfold save_domain, working; simpl.
  destruct (collection st !! domain) as [existing|] eqn:Hex; simpl;
    rewrite lookup_insert_eq; simpl;
    (eexists _, _; split; [done|]; split; [apply lookup_insert_eq|]);
    unfold with_last_seen; simpl;
    rewrite ?union_twice, ?(idemp_L (∪) (list_to_set subs : gset string));
    repeat split; try done.
  - intros d Hd. rewrite lookup_insert_ne; done.
  - intros ->. by rewrite insert_insert_eq.
  - intros d Hd. rewrite lookup_insert_ne; done.
  - intros ->. by rewrite insert_insert_eq.
Qed.

End MergeProperties.

(** ** The length of [str(n)] *)

Section DecimalLength.

Lemma pretty_N_go_length_le x s :
  (String.length s ≤ String.length (pretty_N_go x s))%nat.
Proof.
  revert s. induction (N.lt_wf_0 x) as [x _ IH]; intros s.
  destruct (decide (x = 0)%N) as [->|Hx].
  - by rewrite pretty_N_go_0.
  - rewrite pretty_N_go_step by lia.
    etrans; [|apply IH; apply N.div_lt; lia]. simpl. lia.
Qed.

(** The digits written in front of the accumulator are more than [k]
    exactly from [10 ^ k] on. *)
(** The digits written in front of the accumulator are more than [k]
    exactly from [10 ^ k] on. *)
Lemma pretty_N_go_length_gt (k : nat) : ∀ x s,
  (String.length s + k < String.length (pretty_N_go x s))%nat
  ↔ (10 ^ N.of_nat k ≤ x)%N.
Proof.
  induction k as [|k IH]; intros x s.
  - destruct (decide (x = 0)%N) as [->|Hx].
    + rewrite pretty_N_go_0. simpl. lia.
    + rewrite pretty_N_go_step by lia.
      pose proof (pretty_N_go_length_le (x `div` 10)
                    (String (pretty_N_char (x `mod` 10)) s)) as Hle.
      simpl in *. lia.
  - destruct (decide (x = 0)%N) as [->|Hx].
    + rewrite pretty_N_go_0. split; [lia|].
      intros H. pose proof (N.pow_nonzero 10 (N.of_nat (S k))). lia.
    + rewrite pretty_N_go_step by lia.
      specialize (IH (x `div` 10)%N (String (pretty_N_char (x `mod` 10)) s)).
      simpl String.length in IH.
      replace (String.length s + S k)%nat with (S (String.length s) + k)%nat by lia.
      rewrite IH.
      replace (N.of_nat (S k)) with (N.succ (N.of_nat k)) by lia.
      rewrite N.pow_succ_r by lia.
      pose proof (N.div_mod x 10 ltac:(lia)) as Hdm.
      pose proof (N.mod_lt x 10 ltac:(lia)) as Hm.
      clear IH.
      remember (10 ^ N.of_nat k)%N as P eqn:HP; clear HP.
      remember (x `div` 10)%N as q eqn:Hq; clear Hq.
      remember (x `mod` 10)%N as r eqn:Hr; clear Hr.
      lia.
Qed.

Lemma pretty_N_length_gt (k : nat) (x : N) :
  (0 < k)%nat →
  (k < String.length (pretty x))%nat ↔ (10 ^ N.of_nat k ≤ x)%N.
Proof.
  intros Hk. unfold pretty, pretty_N.
  destruct (decide (x = 0)%N) as [->|Hx].
  - simpl. split; [lia|].
    intros H. pose proof (N.pow_nonzero 10 (N.of_nat k)). lia.
  - apply (pretty_N_go_length_gt k x "").
Qed.

Lemma str_int_positive (n : Z) :
  (0 < n)%Z → Py.str_int n = pretty (Z.abs_N n).
Proof. destruct n as [|p|p]; [lia| |lia]. intros _. reflexivity. Qed.

Lemma str_int_negative (n : Z) :
  (n < 0)%Z → Py.str_int n = "-" +:+ pretty (Z.abs_N n).
Proof. destruct n as [|p|p]; [lia|lia|]. intros _. reflexivity. Qed.

Lemma decimal_digit_length_gt (k : nat) (n : Z) :
  (0 < k)%nat →
  (k < decimal_digit_length n)%nat ↔ (10 ^ Z.of_nat k ≤ Z.abs n)%Z.
Proof.
  intros Hk. unfold decimal_digit_length.
  rewrite (pretty_N_length_gt k _ Hk).
  rewrite N2Z.inj_le, N2Z.inj_pow, N2Z.inj_abs_N, nat_N_Z. reflexivity.
Qed.

End DecimalLength.

(** ** The normalizer *)

Section NormalizerProperties.
Context {datetime : Type}.
Variable fromtimestamp : Q → option datetime.

Lemma bind_Return {A B} (m : exc A) (k : A → exc B) (b : B) :
  m ≫= k = Return b → ∃ a, m = Return a ∧ k a = Return b.
Proof. destruct m as [a|e]; [eauto|discriminate]. Qed.


(** The unit test on integers. A present (non-zero) integer timestamp is
    taken as milliseconds, and divided by 1000 before the conversion,
    exactly when its decimal rendering [str(n)], a leading minus sign
    counted, is longer than 10 characters, and as seconds otherwise;
    when the conversion fails the time is the current clock.  For a
    positive timestamp the length of the rendering is its number of
    decimal digits, so the test is [10 ^ 10 <= n]; for a negative one
    it is one more than the number of digits. *)
Theorem timestamp_unit now (n : Z) :
  n ≠ 0%Z →
  issued_time fromtimestamp now (JInt n) =
    default now (fromtimestamp
                   (if decide (10 < String.length (Py.str_int n))%nat
                    then n # 1000 else inject_Z n))
  ∧ ((0 < n)%Z →
     ((10 < String.length (Py.str_int n))%nat ↔ (10 < decimal_digit_length n)%nat)
     ∧ ((10 < String.length (Py.str_int n))%nat ↔ (10 ^ 10 ≤ n)%Z))
  ∧ ((n < 0)%Z →
     String.length (Py.str_int n) = S (decimal_digit_length n)
     ∧ ((10 < String.length (Py.str_int n))%nat ↔ (n ≤ - 10 ^ 9)%Z)).
Proof.
  intros Hn. split; [|split].
  - unfold issued_time, convert_not_before. simpl.
    destruct (Z.eqb_spec n 0) as [?|_]; [done|]. simpl.
    by destruct (decide _), (fromtimestamp _).
  - intros Hpos. rewrite str_int_positive by done.
    split; [reflexivity|].
    change (String.length (pretty (Z.abs_N n))) with (decimal_digit_length n).
    rewrite (decimal_digit_length_gt 10) by lia.
    change (Z.of_nat 10) with 10%Z. lia.
  - intros Hneg. rewrite str_int_negative by done.
    split; [reflexivity|].
    change (String.length ("-" +:+ pretty (Z.abs_N n)))
      with (S (decimal_digit_length n)).
    assert ((10 < S (decimal_digit_length n))%nat ↔ (9 < decimal_digit_length n)%nat)
      as -> by lia.
    rewrite (decimal_digit_length_gt 9) by lia.
    change (Z.of_nat 9) with 9%Z. lia.
Qed.


End NormalizerProperties.

(** The witness of [timestamp_unit]: 1700000000000 is read as
    milliseconds. *)
Lemma timestamp_unit_witness :
  issued_time (λ q, Some q) 0%Q (JInt 1700000000000) = (1700000000000 # 1000)%Q.
Proof.
  pose proof (timestamp_unit (λ q, Some q) 0%Q 1700000000000) as H.
  destruct H as [H _]; [discriminate|].
  rewrite H. reflexivity.
Defined.

(** A negative timestamp of ten digits: its decimal-digit length does
    not exceed 10, and it is read as milliseconds, not as seconds. *)
Lemma timestamp_unit_counterexample :
  decimal_digit_length (-1700000000) = 10%nat
  ∧ issued_time (λ q, Some q) 0%Q (JInt (-1700000000)) = (-1700000000 # 1000)%Q
  ∧ issued_time (λ q, Some q) 0%Q (JInt (-1700000000)) ≠ inject_Z (-1700000000).
Proof. split; [|split]; [vm_compute; reflexivity..|]. vm_compute. discriminate. Qed.


Section FailureEvaluations.
Context {datetime : Type}.

(** C5, at the failing inputs. The test [len(str(x)) > 10] counts the
    characters of the rendering, not the digits of the number. The
    float [1700000000.0], ten digits of seconds, renders as
    ['1700000000.0'], twelve characters, and is divided by 1000 before
    the conversion; the integer [-1700000000], ten digits, renders with
    its sign in eleven characters and is divided by 1000 too. Both are
    read as milliseconds where the digit length, which does not exceed
    10, asks for seconds; the event is issued in January 1970 or
    December 1969 instead of 2023 or 1916. *)
Theorem digit_test_counts_characters (fromtimestamp : Q → option datetime) now :
  decimal_digit_length 1700000000 = 10%nat
  ∧ issued_time fromtimestamp now (JFloat 1700000000 "1700000000.0")
    = default now (fromtimestamp (1700000000 / 1000)%Q)
  ∧ (∃ ev, _format_message fromtimestamp now
             (event_not_before (JFloat 1700000000 "1700000000.0")) = Return ev
           ∧ time_issued ev = default now (fromtimestamp (1700000000 / 1000)%Q))
  ∧ ¬ (1700000000 / 1000 == 1700000000)%Q
  ∧ decimal_digit_length (-1700000000) = 10%nat
  ∧ issued_time fromtimestamp now (JInt (-1700000000))
    = default now (fromtimestamp (-1700000000 # 1000)%Q)
  ∧ ¬ (-1700000000 # 1000 == inject_Z (-1700000000))%Q.
Proof.
  split; [vm_compute; reflexivity|]. split.
  { unfold issued_time, convert_not_before. simpl.
    by destruct (fromtimestamp _). }
  split.
  { eexists. split; [reflexivity|]. simpl.
    unfold issued_time, convert_not_before. simpl.
    by destruct (fromtimestamp _). }
  split; [by vm_compute|]. split; [vm_compute; reflexivity|]. split.
  { unfold issued_time, convert_not_before. simpl.
    by destruct (fromtimestamp _). }
  by vm_compute.
Qed.

(** C2, at the failing inputs. With [seen_in] present and empty,
    [_format_message] raises [IndexError]; with [seen_in] null it
    raises [TypeError]; the exception leaves [process_certificate]
    and nothing is saved. *)
Theorem seen_in_empty_or_null_raises cfg (fromtimestamp : Q → option datetime)
    now env (st : State datetime) :
  _format_message fromtimestamp now (event_seen_in (JList [])) = Raise IndexError
  ∧ _format_message fromtimestamp now (event_seen_in JNull) = Raise TypeError
  ∧ process_certificate cfg fromtimestamp now env (event_seen_in (JList [])) st
    = (Raise IndexError, st)
  ∧ process_certificate cfg fromtimestamp now env (event_seen_in JNull) st
    = (Raise TypeError, st).
Proof. repeat split. Qed.

(** The sentinel is reached only when the key is missing. *)
Lemma log_name_absent (kv : list (string * json)) :
  Py.assoc "seen_in" kv = None → log_name_of (JObj kv) = Return (JStr "N/A").
Proof. unfold log_name_of. simpl. by intros ->. Qed.

(** C1, at the failing input. When the scan of the store raises,
    [get_all_domains] has already turned the exception into an
    [error] object, and [GET /api/domains] answers 200 with
    [success: true], a count of 1 and that object as data. *)
Theorem get_domains_on_read_failure (isoformat : datetime → string) dt_leb
    (msg : string) (st : State datetime) :
  fst (get_domains isoformat dt_leb (Fails msg) st) =
    {| status := 200;
       body := JObj [("success", JBool true);
                     ("count", JInt 1);
                     ("data", JObj [("error", JStr msg)])] |}.
Proof. reflexivity. Qed.

(** The 500 answer of the handler is never given. *)
Lemma get_domains_always_200 (isoformat : datetime → string) dt_leb
    find_outcome (st : State datetime) :
  status (fst (get_domains isoformat dt_leb find_outcome st)) = 200%Z.
Proof. by destruct find_outcome. Qed.

End FailureEvaluations.

(** ** The filter and the aggregator *)

(** C6. With the suffix [.co.il], no exclusion and no blacklist, the
    raw name [*.sub.example.co.il] cleans to [sub.example.co.il], is a
    target, has the base [example.co.il], and the cleaned name, not the
    base, is recorded as the subdomain of that base, in the batch and
    in the index after the merge. *)
Theorem filter_correctness :
  _clean_domain "*.sub.example.co.il" = "sub.example.co.il"
  ∧ _is_target_domain cfg_co_il "sub.example.co.il" = true
  ∧ _extract_base_domain cfg_co_il "sub.example.co.il" = "example.co.il"
  ∧ collect cfg_co_il [] [JStr "*.sub.example.co.il"]
    = Return [("example.co.il", ["sub.example.co.il"])]
  ∧ subdomains_of
      (snd (process_certificate cfg_co_il (λ q, Some q) 0%Q (λ _, working 0%Q)
              (event_names ["*.sub.example.co.il"]) empty_index))
      "example.co.il" = {["sub.example.co.il"]}.
Proof. repeat split; vm_compute; reflexivity. Qed.

Section FilterProperties.
Variable cfg : Config.

(** The three checks of the target test, in their order. *)
Lemma is_target_domain_checks d :
  _is_target_domain cfg d =
    existsb (λ tld, PyStr.endswith tld d) (israeli_tld_suffixes cfg)
    && negb (existsb (λ suffix, PyStr.contains suffix d) (exclude_suffixes cfg))
    && negb (bool_decide (d ∈ blacklisted_domains cfg)).
Proof.
  unfold _is_target_domain.
  destruct (existsb _ (israeli_tld_suffixes cfg)); simpl; [|done].
  destruct (existsb _ (exclude_suffixes cfg)); simpl; [done|].
  by destruct (bool_decide _).
Qed.

End FilterProperties.

(** C7. A cleaned name that ends with a configured suffix and contains
    a configured excluded substring is rejected whatever the blacklist
    holds, and a name equal to a blacklist entry is rejected whatever
    the suffix and exclusion checks say; the test is the conjunction of
    its three checks taken in order. *)
Theorem target_test_precedence (suffixes excludes : list string) (d : string) :
  (∀ blacklist tld excluded,
      tld ∈ suffixes → PyStr.endswith tld d = true →
      excluded ∈ excludes → PyStr.contains excluded d = true →
      _is_target_domain
        {| israeli_tld_suffixes := suffixes;
           exclude_suffixes := excludes;
           blacklisted_domains := blacklist |} d = false)
  ∧ (∀ blacklist,
      d ∈ blacklist →
      _is_target_domain
        {| israeli_tld_suffixes := suffixes;
           exclude_suffixes := excludes;
           blacklisted_domains := blacklist |} d = false)
  ∧ (∀ blacklist,
      _is_target_domain
        {| israeli_tld_suffixes := suffixes;
           exclude_suffixes := excludes;
           blacklisted_domains := blacklist |} d = true
      ↔ (∃ tld, tld ∈ suffixes ∧ PyStr.endswith tld d = true)
        ∧ (∀ excluded, excluded ∈ excludes → PyStr.contains excluded d = false)
        ∧ d ∉ blacklist).
Proof.
  split; [|split].
  - intros blacklist tld excluded _ _ Hin Hc.
    rewrite is_target_domain_checks. simpl.
    assert (existsb (λ suffix, PyStr.contains suffix d) excludes = true) as ->.
    { apply existsb_exists. exists excluded. by rewrite <-list_elem_of_In. }
    by rewrite andb_false_r.
  - intros blacklist Hin.
    rewrite is_target_domain_checks. simpl.
    rewrite (bool_decide_eq_true_2 _ Hin). by rewrite andb_false_r.
  - intros blacklist. rewrite is_target_domain_checks. simpl.
    rewrite !andb_true_iff, !negb_true_iff, existsb_exists, bool_decide_eq_false.
    split.
    + intros [[(tld & Hin & He) Hex] Hbl]. repeat split; [|  |done].
      * exists tld. by rewrite list_elem_of_In.
      * intros excluded Hin'. destruct (PyStr.contains excluded d) eqn:Hc; [|done].
        assert (existsb (λ suffix, PyStr.contains suffix d) excludes = true) as Ht.
        { apply existsb_exists. exists excluded. by rewrite <-list_elem_of_In. }
        congruence.
    + intros ((tld & Hin & He) & Hex & Hbl). repeat split; [|  |done].
      * exists tld. by rewrite <-list_elem_of_In.
      * apply not_true_is_false. intros (x & Hx & Hcx)%existsb_exists.
        rewrite <-list_elem_of_In in Hx. specialize (Hex x Hx). congruence.
Qed.

(** The witness of [target_test_precedence]: [gov.example.co.il] ends
    with [.co.il] and contains the excluded [gov]; [example.co.il] is on
    the blacklist. *)
Lemma target_test_precedence_witness :
  _is_target_domain
    {| israeli_tld_suffixes := [".co.il"];
       exclude_suffixes := ["gov"];
       blacklisted_domains := [] |} "gov.example.co.il" = false
  ∧ _is_target_domain
      {| israeli_tld_suffixes := [".co.il"];
         exclude_suffixes := [];
         blacklisted_domains := ["example.co.il"] |} "example.co.il" = false.
Proof.
  split.
  - apply (proj1 (target_test_precedence [".co.il"] ["gov"] "gov.example.co.il")
             [] ".co.il" "gov").
    + apply list_elem_of_here.
    + reflexivity.
    + apply list_elem_of_here.
    + reflexivity.
  - apply (proj1 (proj2 (target_test_precedence [".co.il"] [] "example.co.il"))
             ["example.co.il"]).
    apply list_elem_of_here.
Defined.

Section AggregatorProperties.
Variable cfg : Config.

Lemma elem_of_append_to k x (d : Dict.t) b subs :
  (b, subs) ∈ Dict.append_to k x d →
  (b, subs) ∈ d ∨ (b = k ∧ ∃ subs0, (k, subs0) ∈ d ∧ subs = subs0 ++ [x]).
Proof.
  induction d as [|[k' v] d IH]; simpl; [by left|].
  destruct (decide (k = k')) as [<-|Hne].
  - intros [Heq|Hin]%elem_of_cons.
    + inversion Heq; subst. right. split; [done|]. exists v. split; [left|done].
    + left. by right.
  - intros [Heq|Hin]%elem_of_cons.
    + left. rewrite Heq. left.
    + destruct (IH Hin) as [?|(-> & subs0 & ? & ->)].
      * left. by right.
      * right. split; [done|]. exists subs0. split; [by right|done].
Qed.

Lemma collect_step_apex_free vd item vd' :
  apex_free vd → collect_step cfg vd item = Return vd' → apex_free vd'.
Proof.
  intros Hinv. destruct item as [| | | |raw| |]; simpl; try discriminate.
  destruct (_is_target_domain cfg (_clean_domain raw)); simpl;
    [|intros [= <-]; exact Hinv].
  set (clean := _clean_domain raw). set (base := _extract_base_domain cfg clean).
  assert (apex_free (if Dict.mem base vd then vd else vd ++ [(base, [])])) as Hinv'.
  { destruct (Dict.mem base vd); [done|].
    intros b subs [Hin|Hin]%elem_of_app; [by apply Hinv|].
    apply list_elem_of_singleton in Hin. inversion Hin. apply not_elem_of_nil. }
  destruct (decide (clean ≠ base)) as [Hne|_]; intros [= <-]; [|done].
  intros b subs [Hin|(-> & subs0 & Hin & ->)]%elem_of_append_to; [by apply Hinv'|].
  intros [Hin'|Hin']%elem_of_app.
  - by apply (Hinv' _ _ Hin).
  - apply list_elem_of_singleton in Hin'. congruence.
Qed.

Lemma collect_apex_free items : ∀ vd vd',
  apex_free vd → collect cfg vd items = Return vd' → apex_free vd'.
Proof.
  induction items as [|item items IH]; simpl; intros vd vd' Hinv.
  - by intros [= <-].
  - destruct (collect_step cfg vd item) as [vd1|e] eqn:Hstep; simpl; [|discriminate].
    apply IH. by eapply collect_step_apex_free.
Qed.

Section ApexOnly.
Variable c : string.
Hypothesis c_target : _is_target_domain cfg c = true.
Hypothesis c_apex : _extract_base_domain cfg c = c.

Lemma collect_step_dropped (vd : Dict.t) raw :
  _is_target_domain cfg (_clean_domain raw) = false →
  collect_step cfg vd (JStr raw) = Return vd.
Proof. unfold collect_step. by intros ->. Qed.

Lemma collect_step_apex (vd : Dict.t) raw :
  _clean_domain raw = c →
  collect_step cfg vd (JStr raw)
  = Return (if Dict.mem c vd then vd else vd ++ [(c, [])]).
Proof.
  intros Hraw. unfold collect_step. rewrite Hraw, c_target, c_apex.
  cbn [negb]. by destruct (decide (c ≠ c)).
Qed.

Lemma mem_apex_entry : Dict.mem c [(c, [])] = true.
Proof. apply bool_decide_eq_true_2. left. Qed.

Lemma mem_empty : Dict.mem c [] = false.
Proof. apply bool_decide_eq_false_2, not_elem_of_nil. Qed.

(** Once the apex has its entry, names that are dropped or equal to
    the apex leave the batch as it is. *)
Lemma collect_apex_stable (raws : list string) :
  (∀ raw, raw ∈ raws →
          _is_target_domain cfg (_clean_domain raw) = true → _clean_domain raw = c) →
  collect cfg [(c, [])] (JStr <$> raws) = Return [(c, [])].
Proof.
  induction raws as [|raw raws IH]; intros Hall; [reflexivity|].
  rewrite fmap_cons. cbn [collect].
  destruct (_is_target_domain cfg (_clean_domain raw)) eqn:Ht.
  - rewrite (collect_step_apex _ raw) by (apply Hall; [left|done]).
    rewrite mem_apex_entry. apply IH. intros r Hr. apply Hall. by right.
  - rewrite collect_step_dropped by done.
    apply IH. intros r Hr. apply Hall. by right.
Qed.

Lemma collect_apex_only (raws : list string) :
  (∀ raw, raw ∈ raws →
          _is_target_domain cfg (_clean_domain raw) = true → _clean_domain raw = c) →
  (∃ raw, raw ∈ raws ∧ _clean_domain raw = c) →
  collect cfg [] (JStr <$> raws) = Return [(c, [])].
Proof.
  induction raws as [|raw raws IH]; intros Hall (r0 & Hin & Hr0).
  { by apply elem_of_nil in Hin. }
  rewrite fmap_cons. cbn [collect].
  destruct (_is_target_domain cfg (_clean_domain raw)) eqn:Ht.
  - rewrite (collect_step_apex _ raw) by (apply Hall; [left|done]).
    rewrite mem_empty.
    apply collect_apex_stable. intros r Hr. apply Hall. by right.
  - rewrite collect_step_dropped by done.
    apply IH.
    + intros r Hr. apply Hall. by right.
    + exists r0. split; [|done].
      apply elem_of_cons in Hin as [->|Hin]; [|done].
      rewrite Hr0, c_target in Ht. discriminate.
Qed.

End ApexOnly.

End AggregatorProperties.

(** ** The batch merge *)

Section BatchProperties.
Context {datetime : Type}.
Implicit Types (st : State datetime) (env : string → SaveEnv datetime).
Implicit Types (data : CertEvent datetime).

Lemma save_domain_result e domain subs ti icn ln cid st :
  fst (save_domain e domain subs ti icn ln cid st) = bool_decide (failure_of e = None).
Proof.
  unfold save_domain, failure_of.
  destruct (find_one_outcome e); [|done].
  by destruct (collection st !! domain), (write_outcome e).
Qed.

(** A failed save changes nothing in the collection and prints the
    error line. *)
Lemma save_domain_failure e domain subs ti icn ln cid st msg :
  failure_of e = Some msg →
  snd (save_domain e domain subs ti icn ln cid st) = print (error_line domain msg) st.
Proof.
  unfold save_domain, failure_of, save_failed, error_line.
  destruct (find_one_outcome e); [|by intros [= ->]].
  by destruct (collection st !! domain), (write_outcome e); intros [= ->].
Qed.

Lemma save_domain_merges e data b subs st :
  failure_of e = None →
  merged data b (subdomains_of st b ∪ list_to_set subs)
    (snd (save_domain e b subs (time_issued data) (issuer_cn data)
            (log_name data) (cert_id data) st)).
Proof.
  unfold save_domain, failure_of, merged, subdomains_of.
  destruct (find_one_outcome e); [|discriminate].
  destruct (write_outcome e); [intros _|discriminate].
  destruct (collection st !! b) as [existing|]; simpl;
    rewrite lookup_insert_eq; eexists; (split; [done|]); simpl;
    rewrite ?(left_id_L ∅ (∪)); done.
Qed.

Lemma save_domain_keeps_merged e data b S k subs st :
  merged data b S st →
  merged data b S
    (snd (save_domain e k subs (time_issued data) (issuer_cn data)
            (log_name data) (cert_id data) st)).
Proof.
  intros (r & Hr & HS & Hmeta). unfold save_domain, save_failed, merged.
  destruct (find_one_outcome e); [|by exists r].
  destruct (decide (k = b)) as [->|Hne].
  - rewrite Hr. destruct (write_outcome e); [|by exists r]. simpl.
    rewrite lookup_insert_eq. eexists. split; [done|]. simpl.
    split; [by apply union_subseteq_l'|done].
  - destruct (collection st !! k), (write_outcome e); simpl;
      rewrite ?lookup_insert_ne by done; by exists r.
Qed.

Lemma save_all_keeps_merged env data b S batch : ∀ st,
  merged data b S st → merged data b S (save_all env data batch st).
Proof.
  induction batch as [|[k subs] batch IH]; intros st Hm; [done|].
  cbn [save_all].
  pose proof (save_domain_keeps_merged (env k) data b S k subs st Hm) as Hm'.
  destruct (save_domain _ _ _ _ _ _ _ st) as [ok st1]. apply IH, Hm'.
Qed.

Lemma save_all_keeps_stdout env data line batch : ∀ st,
  line ∈ stdout st → line ∈ stdout (save_all env data batch st).
Proof.
  induction batch as [|[k subs] batch IH]; intros st Hin; [done|].
  cbn [save_all].
  assert (line ∈ stdout (snd (save_domain (env k) k subs (time_issued data)
            (issuer_cn data) (log_name data) (cert_id data) st))) as Hin'.
  { unfold save_domain, save_failed.
    destruct (find_one_outcome (env k)), (collection st !! k), (write_outcome (env k));
      simpl; try done; by apply elem_of_app; left. }
  destruct (save_domain _ _ _ _ _ _ _ st) as [ok st1].
  apply IH. simpl in *. by apply elem_of_app; left.
Qed.

(** C9. Whatever happens to the other base domains of the batch, a
    base domain whose own save meets no exception is merged: after
    the batch the index holds its record, with the subdomains of the
    batch entry added to those it had and the metadata of the event;
    a base domain whose save fails has its error line printed; and
    the callback returns normally, no exception leaving the save
    loop. *)
Theorem merge_failure_isolated env data (batch : Dict.t) st b subs :
  (b, subs) ∈ batch →
  (failure_of (env b) = None →
     merged data b (subdomains_of st b ∪ list_to_set subs) (save_all env data batch st))
  ∧ (∀ msg, failure_of (env b) = Some msg →
       error_line b msg ∈ stdout (save_all env data batch st))
  ∧ (∀ cfg fromtimestamp now message,
       filtered_batch cfg fromtimestamp now message = Return (Some (data, batch)) →
       process_certificate cfg fromtimestamp now env message st
       = (Return (), save_all env data batch st)).
Proof.
  intros Hin. split; [|split].
  - intros Hok. revert st.
    induction batch as [|[k subs'] batch IH]; intros st.
    { by apply elem_of_nil in Hin. }
    cbn [save_all].
    apply elem_of_cons in Hin as [[= <- <-]|Hin].
    + pose proof (save_domain_merges (env b) data b subs st Hok) as Hm.
      destruct (save_domain _ _ _ _ _ _ _ st) as [ok st1].
      by apply save_all_keeps_merged.
    + pose proof (save_domain_grows (env k) k subs' (time_issued data)
                    (issuer_cn data) (log_name data) (cert_id data) st b) as Hg.
      destruct (save_domain _ _ _ _ _ _ _ st) as [ok st1]. simpl in Hg.
      destruct (IH Hin (print ("[+] Saved: " +:+ k +:+ " with "
                  +:+ pretty (length subs') +:+ " subdomain(s)") st1))
        as (r & Hr & HS & Hmeta).
      exists r. split; [done|]. split; [|done].
      change (subdomains_of (print _ st1) b) with (subdomains_of st1 b) in HS.
      etrans; [|exact HS]. by apply union_mono_r.
  - intros msg Hfail. revert st.
    induction batch as [|[k subs'] batch IH]; intros st.
    { by apply elem_of_nil in Hin. }
    cbn [save_all].
    apply elem_of_cons in Hin as [[= <- <-]|Hin].
    + pose proof (save_domain_failure (env b) b subs (time_issued data)
                    (issuer_cn data) (log_name data) (cert_id data) st msg Hfail) as Hs.
      destruct (save_domain _ _ _ _ _ _ _ st) as [ok st1]. simpl in Hs. subst st1.
      apply save_all_keeps_stdout. simpl.
      apply elem_of_app; left. apply elem_of_app; right. left.
    + destruct (save_domain _ _ _ _ _ _ _ st) as [ok st1]. by apply IH.
  - intros cfg ft now message Hfb. unfold process_certificate. by rewrite Hfb.
Qed.

End BatchProperties.

(** The witness of [merge_failure_isolated]: the store is down for
    [a.co.il], the first entry of the batch; [b.co.il] is merged all the
    same. *)
Lemma merge_failure_isolated_witness :
  merged (names_only 0%Q []) "b.co.il" (∅ ∪ list_to_set ["x.b.co.il"])
    (save_all env_a_down (names_only 0%Q [])
       [("a.co.il", []); ("b.co.il", ["x.b.co.il"])] empty_index).
Proof.
  apply (proj1 (merge_failure_isolated env_a_down (names_only 0%Q [])
                  [("a.co.il", []); ("b.co.il", ["x.b.co.il"])] empty_index
                  "b.co.il" ["x.b.co.il"]
                  (list_elem_of_further _ _ _ (list_elem_of_here _ _)))).
  reflexivity.
Defined.

(** ** The apex-only event *)

Section ApexOnlyEvent.
Variable cfg : Config.

Lemma filtered_batch_event_names {datetime : Type}
    (fromtimestamp : Q → option datetime) now (names : list string) :
  filtered_batch cfg fromtimestamp now (event_names names)
  = collect cfg [] (JStr <$> names)
    ≫= λ valid_domains, Return (Some (names_only now names, valid_domains)).
Proof. reflexivity. Qed.

(** What [filtered_batch] returns for a certificate update is the
    normalised event and the batch collected from its names. *)
Lemma filtered_batch_inv {datetime : Type}
    (fromtimestamp : Q → option datetime) now message data vd :
  filtered_batch cfg fromtimestamp now message = Return (Some (data, vd)) →
  ∃ items, Py.iter (domain_names data) = Return items
           ∧ collect cfg [] items = Return vd.
Proof.
  unfold filtered_batch. intros H.
  apply bind_Return in H as (mt & _ & H).
  destruct (negb (is_certificate_update mt)); [discriminate|].
  apply bind_Return in H as (data' & _ & H).
  apply bind_Return in H as (items & Hitems & H).
  apply bind_Return in H as (vd' & Hvd & H).
  inversion H; subst. by exists items.
Qed.

(** C8. When the only name of an event that survives the filter is a
    name equal to its own base domain, the batch has one entry, that
    base with an empty subdomain list; on a working store the callback
    returns and has written the record of that base, and nothing else,
    into the index: a record created under the base when there was
    none, merged otherwise, with the subdomain set the index had for
    the base (empty for a new record), the metadata of the event and
    [last_seen] at the clock of the save; this for the event that
    carries the names alone and for every event that normalises to
    them; and in no batch is a base listed among its own subdomains. *)
Theorem apex_only_event (raws : list string) (c : string) :
  _is_target_domain cfg c = true →
  _extract_base_domain cfg c = c →
  (∀ raw, raw ∈ raws →
          _is_target_domain cfg (_clean_domain raw) = true → _clean_domain raw = c) →
  (∃ raw, raw ∈ raws ∧ _clean_domain raw = c) →
  collect cfg [] (JStr <$> raws) = Return [(c, [])]
  ∧ (∀ (datetime : Type) (fromtimestamp : Q → option datetime) now t
       (st : State datetime),
       let res := process_certificate cfg fromtimestamp now (λ _, working t)
                    (event_names raws) st in
       fst res = Return ()
       ∧ ∃ r, collection (snd res) !! c = Some r
              ∧ collection (snd res) = <[c := r]> (collection st)
              ∧ doc_subdomains r = subdomains_of st c
              ∧ doc_time_issued r = now
              ∧ doc_issuer_cn r = JStr "N/A"
              ∧ doc_log_name r = JStr "N/A"
              ∧ doc_cert_id r = JStr "N/A"
              ∧ doc_last_seen r = t
              ∧ (collection st !! c = None → doc_domain r = c))
  ∧ (∀ (datetime : Type) (fromtimestamp : Q → option datetime) now t
       message data vd (st : State datetime),
       filtered_batch cfg fromtimestamp now message = Return (Some (data, vd)) →
       domain_names data = JList (JStr <$> raws) →
       vd = [(c, [])]
       ∧ ∃ st' r,
           process_certificate cfg fromtimestamp now (λ _, working t) message st
           = (Return (), st')
           ∧ collection st' !! c = Some r
           ∧ collection st' = <[c := r]> (collection st)
           ∧ doc_subdomains r = subdomains_of st c
           ∧ doc_time_issued r = time_issued data
           ∧ doc_issuer_cn r = issuer_cn data
           ∧ doc_log_name r = log_name data
           ∧ doc_cert_id r = cert_id data
           ∧ doc_last_seen r = t
           ∧ (collection st !! c = None → doc_domain r = c))
  ∧ (∀ items vd, collect cfg [] items = Return vd → apex_free vd).
Proof.
  intros Ht Hb Hall Hex.
  pose proof (collect_apex_only cfg c Ht Hb raws Hall Hex) as Hc.
  split; [exact Hc|]. split; [|split].
  2:{ intros datetime ft now t message data vd st Hfb Hnames.
      destruct (filtered_batch_inv ft now message data vd Hfb) as (items & Hit & Hvd).
      rewrite Hnames in Hit. simpl in Hit. injection Hit as <-.
      rewrite Hc in Hvd. injection Hvd as <-.
      split; [reflexivity|].
      unfold process_certificate. rewrite Hfb.
      cbn [save_all]. unfold save_domain, subdomains_of. simpl.
      destruct (collection st !! c) as [existing|] eqn:Hexisting; simpl;
        (eexists _, _; split; [reflexivity|]); simpl;
        (split; [apply lookup_insert_eq|]); (split; [reflexivity|]); simpl;
        rewrite ?(right_id_L ∅ (∪)); repeat split; done. }
  - intros datetime ft now t st res. subst res.
    unfold process_certificate.
    rewrite filtered_batch_event_names, Hc. cbn [mbind exc_bind].
    split; [reflexivity|].
    cbn [save_all snd]. unfold save_domain, subdomains_of. simpl.
    destruct (collection st !! c) as [existing|] eqn:Hexisting; simpl;
      (eexists; split; [apply lookup_insert_eq|]); (split; [reflexivity|]); simpl;
      rewrite ?(right_id_L ∅ (∪)); repeat split; done.
  - intros items vd. apply collect_apex_free. intros b subs Hin.
    by apply elem_of_nil in Hin.
Qed.

End ApexOnlyEvent.

(** The witness of [apex_only_event]: an event naming only
    [example.co.il], on an empty index. *)
Lemma apex_only_event_witness :
  collect cfg_co_il [] (JStr <$> ["example.co.il"]) = Return [("example.co.il", [])].
Proof.
  apply (apex_only_event cfg_co_il ["example.co.il"] "example.co.il").
  - reflexivity.
  - reflexivity.
  - intros raw Hin _. apply list_elem_of_singleton in Hin. rewrite Hin. reflexivity.
  - exists "example.co.il". split; [apply list_elem_of_here|reflexivity].
Defined.

Example apex_only_record :
  subdomains_of
    (snd (process_certificate cfg_co_il (λ q, Some q) 0%Q (λ _, working 0%Q)
            (event_names ["example.co.il"]) empty_index))
    "example.co.il" = ∅
  ∧ is_Some (collection
      (snd (process_certificate cfg_co_il (λ q, Some q) 0%Q (λ _, working 0%Q)
              (event_names ["example.co.il"]) empty_index)) !! "example.co.il").
Proof. split; [vm_compute; reflexivity|]. vm_compute. eauto. Qed.

(** The end-to-end example of the design: one record, for
    [example.co.il], with the subdomain [mail.example.co.il]; the third
    name does not end with the suffix. *)
Example end_to_end :
  collect cfg_co_il []
    (JStr <$> ["*.mail.example.co.il"; "example.co.il"; "evil-example.co.il.attacker.com"])
  = Return [("example.co.il", ["mail.example.co.il"])].
Proof. vm_compute. reflexivity. Qed.


(** * Further properties of the pipeline *)

(** ** Cleaned names are in normal form *)

Section CleanProperties.

Lemma isspace_lower_char c : PyStr.isspace (PyStr.lower_char c) = PyStr.isspace c.
Proof. destruct c as [[] [] [] [] [] [] [] []]; reflexivity. Qed.

Lemma lower_char_idemp c : PyStr.lower_char (PyStr.lower_char c) = PyStr.lower_char c.
Proof. destruct c as [[] [] [] [] [] [] [] []]; reflexivity. Qed.

Lemma lower_idemp s : PyStr.lower (PyStr.lower s) = PyStr.lower s.
Proof. induction s as [|c s IH]; simpl; [done|]. by rewrite lower_char_idemp, IH. Qed.

Lemma lstrip_space_lower s :
  PyStr.lstrip_space (PyStr.lower s) = PyStr.lower (PyStr.lstrip_space s).
Proof.
  induction s as [|c s IH]; simpl; [done|].
  rewrite isspace_lower_char. by destruct (PyStr.isspace c).
Qed.

Lemma rstrip_space_lower s :
  PyStr.rstrip_space (PyStr.lower s) = PyStr.lower (PyStr.rstrip_space s).
Proof.
  induction s as [|c s IH]; simpl; [done|].
  rewrite IH, isspace_lower_char.
  destruct (PyStr.rstrip_space s); simpl; [|done].
  by destruct (PyStr.isspace c).
Qed.

Lemma rstrip_space_idemp s :
  PyStr.rstrip_space (PyStr.rstrip_space s) = PyStr.rstrip_space s.
Proof.
  induction s as [|c s IH]; simpl; [done|].
  destruct (PyStr.rstrip_space s) as [|c' r] eqn:Hr.
  - destruct (PyStr.isspace c) eqn:Hc; simpl; [done|]. by rewrite Hc.
  - change (PyStr.rstrip_space (String c (String c' r)))
      with (match PyStr.rstrip_space (String c' r) with
            | EmptyString =>
                if PyStr.isspace c then EmptyString else String c EmptyString
            | r' => String c r'
            end).
    by rewrite IH.
Qed.

(** Stripping on the right keeps a first character that is not a
    space. *)
Lemma lstrip_rstrip_space s :
  PyStr.lstrip_space s = s →
  PyStr.lstrip_space (PyStr.rstrip_space s) = PyStr.rstrip_space s.
Proof.
  destruct s as [|c s]; simpl; [done|].
  destruct (PyStr.isspace c) eqn:Hc.
  - intros H. apply (f_equal String.length) in H. simpl in H.
    assert (∀ t, String.length (PyStr.lstrip_space t) ≤ String.length t)%nat as Hle.
    { clear. induction t as [|a t IH]; simpl; [done|].
      destruct (PyStr.isspace a); simpl; lia. }
    specialize (Hle s). lia.
  - intros _. destruct (PyStr.rstrip_space s); simpl; by rewrite Hc.
Qed.

Lemma lstrip_space_idemp s :
  PyStr.lstrip_space (PyStr.lstrip_space s) = PyStr.lstrip_space s.
Proof.
  induction s as [|c s IH]; simpl; [done|].
  destruct (PyStr.isspace c) eqn:Hc; [done|]. simpl. by rewrite Hc.
Qed.

Lemma strip_idemp s : PyStr.strip (PyStr.strip s) = PyStr.strip s.
Proof.
  unfold PyStr.strip.
  rewrite (lstrip_rstrip_space _ (lstrip_space_idemp s)).
  apply rstrip_space_idemp.
Qed.

Lemma strip_lower s : PyStr.strip (PyStr.lower s) = PyStr.lower (PyStr.strip s).
Proof. unfold PyStr.strip. by rewrite lstrip_space_lower, rstrip_space_lower. Qed.

Lemma clean_domain_lower raw : PyStr.lower (_clean_domain raw) = _clean_domain raw.
Proof. unfold _clean_domain. apply lower_idemp. Qed.

(** X1. A cleaned name is in normal form: lower-casing it or stripping
    it again changes nothing. *)
Theorem clean_domain_normal_form raw :
  PyStr.lower (_clean_domain raw) = _clean_domain raw
  ∧ PyStr.strip (_clean_domain raw) = _clean_domain raw.
Proof.
  split.
  - apply clean_domain_lower.
  - unfold _clean_domain. by rewrite strip_lower, strip_idemp.
Qed.

End CleanProperties.

(** ** Matching is case-sensitive and literal *)

Section MatchingProperties.

Lemma lower_drop_chars n : ∀ s,
  PyStr.lower (PyStr.drop_chars n s) = PyStr.drop_chars n (PyStr.lower s).
Proof. induction n as [|n IH]; intros [|c s]; simpl; auto. Qed.

Lemma endswith_drop_chars p s :
  PyStr.endswith p s = true →
  PyStr.drop_chars (String.length s - String.length p) s = p.
Proof.
  unfold PyStr.endswith. destruct (decide _); [|discriminate].
  apply bool_decide_eq_true_1.
Qed.

Lemma startswith_lower p : ∀ s,
  PyStr.startswith p s = true → PyStr.lower s = s → PyStr.lower p = p.
Proof.
  induction p as [|a p IH]; intros [|b s]; simpl; try done.
  destruct (decide (a = b)) as [->|]; [|discriminate].
  intros Hp [= Hb Hs]. by rewrite Hb, (IH s Hp Hs).
Qed.

Lemma contains_lower p : ∀ s,
  PyStr.contains p s = true → PyStr.lower s = s → PyStr.lower p = p.
Proof.
  induction s as [|b s IH]; simpl.
  - rewrite orb_false_r. intros Hp _. by apply (startswith_lower p "").
  - intros [Hp|Hp]%orb_true_iff Hs.
    + by apply (startswith_lower p (String b s)).
    + injection Hs as _ Hs. by apply IH.
Qed.

(** X2. Names are lower-cased before they are matched and the configured
    entries are not: a suffix, an excluded substring or a blacklist
    entry that contains an upper-case letter never matches a cleaned
    name. *)
Theorem upper_case_entry_never_matches (entry raw : string) :
  PyStr.lower entry ≠ entry →
  PyStr.endswith entry (_clean_domain raw) = false
  ∧ PyStr.contains entry (_clean_domain raw) = false
  ∧ _clean_domain raw ≠ entry.
Proof.
  intros Hup. pose proof (clean_domain_lower raw) as Hlow.
  split; [|split].
  - apply not_true_is_false. intros He. apply Hup.
    rewrite <-(endswith_drop_chars _ _ He) at 2.
    rewrite <-Hlow at 2.
    by rewrite <-lower_drop_chars, (endswith_drop_chars _ _ He).
  - apply not_true_is_false. intros Hc. apply Hup.
    by apply (contains_lower entry (_clean_domain raw)).
  - intros <-. by apply Hup.
Qed.

Lemma contains_empty s : PyStr.contains "" s = true.
Proof. by destruct s. Qed.

Lemma drop_chars_all s : PyStr.drop_chars (String.length s) s = "".
Proof. induction s as [|c s IH]; simpl; done. Qed.

Lemma endswith_empty s : PyStr.endswith "" s = true.
Proof.
  unfold PyStr.endswith. cbn [String.length].
  case_decide; [|lia].
  apply bool_decide_eq_true_2. rewrite Nat.sub_0_r. apply drop_chars_all.
Qed.

(** X3. An empty string among the excluded substrings occurs in every
    name, so the filter then rejects every name; an empty string among
    the suffixes ends every name, so the suffix check then lets every
    name through to the other two checks. *)
Theorem empty_entry_matches_everything (cfg : Config) (d : string) :
  ("" ∈ exclude_suffixes cfg → _is_target_domain cfg d = false)
  ∧ ("" ∈ israeli_tld_suffixes cfg →
     _is_target_domain cfg d =
       negb (existsb (λ suffix, PyStr.contains suffix d) (exclude_suffixes cfg))
       && negb (bool_decide (d ∈ blacklisted_domains cfg))).
Proof.
  rewrite is_target_domain_checks. split; intros Hin.
  - assert (existsb (λ suffix, PyStr.contains suffix d) (exclude_suffixes cfg) = true)
      as ->.
    { apply existsb_exists. exists "". split; [by apply list_elem_of_In|].
      apply contains_empty. }
    by rewrite andb_false_r.
  - assert (existsb (λ tld, PyStr.endswith tld d) (israeli_tld_suffixes cfg) = true)
      as ->.
    { apply existsb_exists. exists "". split; [by apply list_elem_of_In|].
      apply endswith_empty. }
    by rewrite <-andb_assoc.
Qed.

End MatchingProperties.

Lemma upper_case_entry_never_matches_witness :
  PyStr.endswith ".CO.IL" (_clean_domain "Example.CO.IL") = false
  ∧ PyStr.contains ".CO.IL" (_clean_domain "Example.CO.IL") = false
  ∧ _clean_domain "Example.CO.IL" ≠ ".CO.IL".
Proof.
  apply (upper_case_entry_never_matches ".CO.IL" "Example.CO.IL").
  vm_compute. discriminate.
Defined.

Lemma empty_entry_matches_everything_witness :
  _is_target_domain
    {| israeli_tld_suffixes := [".co.il"];
       exclude_suffixes := [""];
       blacklisted_domains := [] |} "example.co.il" = false.
Proof.
  apply (proj1 (empty_entry_matches_everything
                  {| israeli_tld_suffixes := [".co.il"];
                     exclude_suffixes := [""];
                     blacklisted_domains := [] |} "example.co.il")).
  apply list_elem_of_here.
Defined.

(** ** The base domain is a tail of the name *)

Section BaseDomainProperties.

Lemma split_dot_nonempty s : PyStr.split_dot s ≠ [].
Proof.
  destruct s as [|c s]; simpl; [done|].
  destruct (decide (c = "."%char)); [done|].
  by destruct (PyStr.split_dot s).
Qed.

(** ['.'.join(s.split('.')) == s] *)
Lemma join_split_dot s : PyStr.join_dot (PyStr.split_dot s) = s.
Proof.
  induction s as [|c s IH]; [done|].
  cbn [PyStr.split_dot].
  pose proof (split_dot_nonempty s) as Hne.
  destruct (decide (c = "."%char)) as [->|Hc].
  - destruct (PyStr.split_dot s) as [|h t]; [done|].
    change (PyStr.join_dot ("" :: h :: t)) with ("." +:+ PyStr.join_dot (h :: t)).
    by rewrite IH.
  - destruct (PyStr.split_dot s) as [|h t]; [done|].
    destruct t as [|h' t]; simpl in *; by rewrite <-IH.
Qed.

Lemma length_append (a b : string) :
  String.length (a +:+ b) = (String.length a + String.length b)%nat.
Proof. induction a as [|c a IH]; simpl; [done|]. by rewrite IH. Qed.

Lemma append_assoc (a b c : string) : (a +:+ b) +:+ c = a +:+ (b +:+ c).
Proof.
  induction a as [|x a IH]; [done|].
  change (String x ((a +:+ b) +:+ c) = String x (a +:+ (b +:+ c))).
  by rewrite IH.
Qed.

Lemma drop_chars_append (a b : string) :
  PyStr.drop_chars (String.length a) (a +:+ b) = b.
Proof. induction a as [|c a IH]; simpl; done. Qed.

Lemma endswith_append (a b : string) : PyStr.endswith b (a +:+ b) = true.
Proof.
  unfold PyStr.endswith. rewrite length_append.
  case_decide; [|lia]. apply bool_decide_eq_true_2.
  replace (String.length a + String.length b - String.length b)%nat
    with (String.length a) by lia.
  apply drop_chars_append.
Qed.

(** The join of the last labels is a tail of the join of them all. *)
Lemma join_dot_drop (l : list string) (k : nat) :
  (k < length l)%nat →
  ∃ a, PyStr.join_dot l = a +:+ PyStr.join_dot (drop k l).
Proof.
  revert l. induction k as [|k IH]; intros l Hk.
  - exists "". by rewrite drop_0.
  - destruct l as [|x l]; simpl in Hk; [lia|].
    destruct (IH l ltac:(lia)) as (a & Ha).
    destruct l as [|y l]; simpl in Hk; [lia|].
    exists (x +:+ "." +:+ a).
    change (PyStr.join_dot (x :: y :: l)) with (x +:+ "." +:+ PyStr.join_dot (y :: l)).
    rewrite Ha. cbn [drop].
    by rewrite !append_assoc.
Qed.

Lemma base_loop_suffix domain suffixes base :
  base_loop domain (PyStr.split_dot domain) suffixes = Some base →
  PyStr.endswith base domain = true.
Proof.
  induction suffixes as [|suffix rest IH]; simpl; [done|].
  destruct (PyStr.endswith suffix domain); [|done].
  case_decide as Hlen; [|done].
  intros [= <-]. unfold PyStr.last_n.
  set (parts := PyStr.split_dot domain) in *.
  destruct (join_dot_drop parts
              (length parts - (length (PyStr.split_dot (PyStr.lstrip_dot suffix)) + 1))
              ltac:(lia)) as (a & Ha).
  unfold parts in Ha at 1. rewrite join_split_dot in Ha.
  pose proof (endswith_append a (PyStr.join_dot
    (drop (length parts - (length (PyStr.split_dot (PyStr.lstrip_dot suffix)) + 1))
       parts))) as He.
  by rewrite <-Ha in He.
Qed.

(** X4. The base domain is always a tail of the name it is extracted
    from: the name ends with its base. *)
Theorem base_domain_is_suffix (cfg : Config) (domain : string) :
  PyStr.endswith (_extract_base_domain cfg domain) domain = true.
Proof.
  unfold _extract_base_domain.
  destruct (base_loop _ _ _) as [base|] eqn:Hloop.
  - by eapply base_loop_suffix.
  - apply (endswith_append "" domain).
Qed.

End BaseDomainProperties.

(** ** What a batch holds *)

Section BatchContents.
Variable cfg : Config.

Lemma append_to_keys k x (d : Dict.t) : (Dict.append_to k x d).*1 = d.*1.
Proof.
  induction d as [|[k' v] d IH]; [done|]. cbn [Dict.append_to].
  destruct (decide (k = k')); rewrite !fmap_cons; [done|]. by rewrite IH.
Qed.

Lemma append_to_grows k x (d : Dict.t) b subs :
  (b, subs) ∈ d →
  ∃ subs', (b, subs') ∈ Dict.append_to k x d ∧ subs ⊆ subs'.
Proof.
  induction d as [|[k' v] d IH]; simpl; [by intros ?%elem_of_nil|].
  intros [[= -> ->]|Hin]%elem_of_cons.
  - destruct (decide (k = k')).
    + exists (v ++ [x]). split; [left|]. by apply list_subseteq_app_l.
    + exists v. split; [left|done].
  - destruct (decide (k = k')).
    + exists subs. split; [by right|done].
    + destruct (IH Hin) as (subs' & ? & ?). exists subs'. split; [by right|done].
Qed.

Lemma append_to_appends k x (d : Dict.t) :
  k ∈ d.*1 → ∃ subs, (k, subs ++ [x]) ∈ Dict.append_to k x d.
Proof.
  induction d as [|[k' v] d IH]; simpl; [by intros ?%elem_of_nil|].
  destruct (decide (k = k')) as [<-|Hne].
  - intros _. exists v. left.
  - intros [?|Hin]%elem_of_cons; [done|].
    destruct (IH Hin) as (subs & ?). exists subs. by right.
Qed.

(** The batch after one surviving name: its base has an entry. *)
Lemma collect_step_str vd raw :
  collect_step cfg vd (JStr raw) =
    let clean := _clean_domain raw in
    if negb (_is_target_domain cfg clean) then Return vd
    else
      let base := _extract_base_domain cfg clean in
      let vd1 := if Dict.mem base vd then vd else vd ++ [(base, [])] in
      Return (if decide (clean ≠ base) then Dict.append_to base clean vd1 else vd1).
Proof.
  unfold collect_step. cbn zeta.
  destruct (negb _); [done|]. by destruct (decide _).
Qed.

Lemma collect_step_keys vd raw vd' :
  collect_step cfg vd (JStr raw) = Return vd' → NoDup vd.*1 → NoDup vd'.*1.
Proof.
  rewrite collect_step_str. cbn zeta.
  destruct (negb _); [by intros [= <-]|].
  set (base := _extract_base_domain cfg (_clean_domain raw)).
  intros [= <-] Hnd.
  assert (NoDup (if Dict.mem base vd then vd else vd ++ [(base, [])]).*1) as Hnd'.
  { unfold Dict.mem. case_bool_decide as Hm; [done|].
    rewrite fmap_app. apply NoDup_app. split; [done|]. split.
    - intros k Hk [->|[]%elem_of_nil]%elem_of_cons. done.
    - apply NoDup_singleton. }
  destruct (decide _); [by rewrite append_to_keys|done].
Qed.

Lemma collect_step_sound (R : string → Prop) vd raw vd' :
  collect_step cfg vd (JStr raw) = Return vd' →
  batch_sound cfg R vd →
  batch_sound cfg (λ r, R r ∨ r = raw) vd'.
Proof.
  rewrite collect_step_str. cbn zeta. intros Hstep Hs.
  assert (batch_sound cfg (λ r, R r ∨ r = raw) vd) as Hs0.
  { intros b subs Hin. destruct (Hs b subs Hin) as [(r & ? & ? & ?) Hsubs].
    split; [by exists r; auto|].
    intros s Hs'. destruct (Hsubs s Hs') as (r' & ? & ?). exists r'; auto. }
  destruct (_is_target_domain cfg (_clean_domain raw)) eqn:Ht; simpl in Hstep;
    [|by injection Hstep as <-].
  set (clean := _clean_domain raw) in *.
  set (base := _extract_base_domain cfg clean) in *.
  assert (batch_sound cfg (λ r, R r ∨ r = raw)
            (if Dict.mem base vd then vd else vd ++ [(base, [])])) as Hs1.
  { destruct (Dict.mem base vd); [done|].
    intros b subs [Hin|Hin]%elem_of_app; [by apply Hs0|].
    apply list_elem_of_singleton in Hin. injection Hin as -> ->.
    split; [by exists raw; auto|]. by intros s ?%elem_of_nil. }
  destruct (decide (clean ≠ base)) as [Hne|_]; injection Hstep as <-; [|done].
  intros b subs [Hin|(-> & subs0 & Hin & ->)]%elem_of_append_to; [by apply Hs1|].
  destruct (Hs1 base subs0 Hin) as [Hb Hsubs]. split; [done|].
  intros s [Hin'|Hin']%elem_of_app; [by apply Hsubs|].
  apply list_elem_of_singleton in Hin'. subst s.
  exists raw. repeat split; auto.
Qed.

Lemma collect_step_complete (R : string → Prop) vd raw vd' :
  collect_step cfg vd (JStr raw) = Return vd' →
  batch_complete cfg R vd →
  batch_complete cfg (λ r, R r ∨ r = raw) vd'.
Proof.
  rewrite collect_step_str. cbn zeta. intros Hstep Hc.
  destruct (_is_target_domain cfg (_clean_domain raw)) eqn:Ht; simpl in Hstep.
  2:{ injection Hstep as <-. intros r [Hr| ->] Htr; [by apply Hc|congruence]. }
  set (clean := _clean_domain raw) in *.
  set (base := _extract_base_domain cfg clean) in *.
  set (vd1 := if Dict.mem base vd then vd else vd ++ [(base, [])]) in *.
  assert (∀ b subs, (b, subs) ∈ vd → (b, subs) ∈ vd1) as Hsub.
  { intros b subs Hin. unfold vd1. destruct (Dict.mem base vd); [done|].
    apply elem_of_app. by left. }
  assert (base ∈ vd1.*1) as Hbase.
  { unfold vd1, Dict.mem. case_bool_decide as Hm; [done|].
    rewrite fmap_app. apply elem_of_app. right. left. }
  intros r [Hr| ->] Htr.
  - destruct (Hc r Hr Htr) as (subs & Hin & Hsubs).
    destruct (decide (clean ≠ base)); injection Hstep as <-.
    + destruct (append_to_grows base clean vd1 _ subs (Hsub _ _ Hin))
        as (subs' & Hin' & Hincl).
      exists subs'. split; [done|]. intros Hne. by apply Hincl, Hsubs.
    + exists subs. split; [by apply Hsub|done].
  - fold clean. fold base.
    destruct (decide (clean ≠ base)) as [Hne|Heq]; injection Hstep as <-.
    + destruct (append_to_appends base clean vd1 Hbase) as (subs & Hin).
      exists (subs ++ [clean]). split; [done|]. intros _.
      apply elem_of_app. right. left.
    + apply list_elem_of_fmap in Hbase as ([b subs] & -> & Hin).
      exists subs. split; [done|]. intros Hne. by destruct Heq.
Qed.

Lemma collect_contents items : ∀ (R : string → Prop) vd vd',
  collect cfg vd items = Return vd' →
  NoDup vd.*1 → batch_sound cfg R vd → batch_complete cfg R vd →
  NoDup vd'.*1
  ∧ batch_sound cfg (λ r, R r ∨ JStr r ∈ items) vd'
  ∧ batch_complete cfg (λ r, R r ∨ JStr r ∈ items) vd'.
Proof.
  induction items as [|item items IH]; intros R vd vd'; cbn [collect].
  - intros [= <-] Hnd Hs Hc. split; [done|]. split.
    + intros b subs Hin. destruct (Hs b subs Hin) as [(r & ? & ?) Hsubs].
      split; [by exists r; auto|].
      intros s Hs'. destruct (Hsubs s Hs') as (r' & ? & ?). exists r'; auto.
    + intros r [Hr|[]%elem_of_nil] Htr. by apply Hc.
  - destruct (collect_step cfg vd item) as [vd1|e] eqn:Hstep; [|done].
    destruct item as [| | | |raw| |]; try discriminate.
    intros Hcoll Hnd Hs Hc.
    destruct (IH _ vd1 vd' Hcoll (collect_step_keys _ _ _ Hstep Hnd)
                (collect_step_sound R _ _ _ Hstep Hs)
                (collect_step_complete R _ _ _ Hstep Hc)) as (Hnd' & Hs' & Hc').
    split; [done|]. split.
    + intros b subs Hin. destruct (Hs' b subs Hin) as [(r & Hr & ?) Hsubs].
      split.
      * exists r. split; [|done].
        destruct Hr as [[?| ->]|?]; [by left|right; left|right; by right].
      * intros s Hin'. destruct (Hsubs s Hin') as (r' & Hr' & ?).
        exists r'. split; [|done].
        destruct Hr' as [[?| ->]|?]; [by left|right; left|right; by right].
    + intros r Hr. apply Hc'.
      destruct Hr as [?|[[= ->]|?]%elem_of_cons]; auto.
Qed.

(** X5. What the aggregator collects from the names of an event is
    exactly what survives the filter. The batch has one entry per base
    domain; every entry is the base of a surviving name and lists only
    surviving cleaned names that have this base and differ from it; and
    every surviving name has the entry of its base, which lists the
    cleaned name unless the name is the base itself. *)
Theorem batch_contents (items : list json) (vd : Dict.t) :
  collect cfg [] items = Return vd →
  NoDup vd.*1
  ∧ batch_sound cfg (λ raw, JStr raw ∈ items) vd
  ∧ batch_complete cfg (λ raw, JStr raw ∈ items) vd.
Proof.
  intros Hcoll.
  destruct (collect_contents items (λ _, False) [] vd Hcoll) as (Hnd & Hs & Hc).
  - apply NoDup_nil_2.
  - by intros b subs ?%elem_of_nil.
  - by intros r [].
  - split; [done|]. split.
    + intros b subs Hin. destruct (Hs b subs Hin) as [(r & [[]|Hr] & ?) Hsubs].
      split; [by exists r|].
      intros s Hin'. destruct (Hsubs s Hin') as (r' & [[]|?] & ?). by exists r'.
    + intros r Hr. apply Hc. by right.
Qed.

(** X6. The name loop returns a batch exactly when every item of the
    list is a string; one item of another type anywhere in the list
    raises [AttributeError], whatever the names before it. *)
Theorem collect_needs_strings (items : list json) (vd : Dict.t) :
  (forallb is_str items = true → ∃ vd', collect cfg vd items = Return vd')
  ∧ (forallb is_str items = false → collect cfg vd items = Raise AttributeError).
Proof.
  revert vd. induction items as [|item items IH]; intros vd; cbn [collect forallb].
  - split; [by eexists|discriminate].
  - destruct item as [| | | |raw| |]; cbn [is_str andb];
      try (split; [discriminate|reflexivity]).
    rewrite collect_step_str. cbn zeta.
    destruct (negb _); [apply IH|]. destruct (decide _); apply IH.
Qed.

End BatchContents.

(** ** One save *)

Section SaveProperties.
Context {datetime : Type}.
Implicit Types (st : State datetime) (e : SaveEnv datetime).

Lemma save_domain_frame e domain subs ti icn ln cid st k :
  k ≠ domain →
  collection (snd (save_domain e domain subs ti icn ln cid st)) !! k
  = collection st !! k.
Proof.
  intros Hk. unfold save_domain, save_failed.
  destruct (find_one_outcome e); [|done].
  destruct (collection st !! domain), (write_outcome e); simpl;
    rewrite ?lookup_insert_ne by done; done.
Qed.

(** X7. [save_domain] returns [True] exactly when neither its read nor
    its write raises. It touches no record but the one of its domain; a
    failed save changes no record at all and prints its error line; a
    successful one prints nothing. *)
Theorem save_domain_outcome e domain subs ti icn ln cid st :
  let res := save_domain e domain subs ti icn ln cid st in
  fst res = bool_decide (failure_of e = None)
  ∧ (∀ k, k ≠ domain → collection (snd res) !! k = collection st !! k)
  ∧ (∀ msg, failure_of e = Some msg →
       collection (snd res) = collection st
       ∧ stdout (snd res) = stdout st ++ [error_line domain msg])
  ∧ (failure_of e = None → stdout (snd res) = stdout st).
Proof.
  cbn zeta. split; [apply save_domain_result|]. split; [|split].
  - intros k Hk. by apply save_domain_frame.
  - intros msg Hf. by rewrite (save_domain_failure _ _ _ _ _ _ _ _ _ Hf).
  - unfold failure_of, save_domain.
    destruct (find_one_outcome e); [|done].
    destruct (write_outcome e); [|done]. intros _.
    by destruct (collection st !! domain).
Qed.

Lemma save_domain_well_keyed e domain subs ti icn ln cid st :
  well_keyed st → well_keyed (snd (save_domain e domain subs ti icn ln cid st)).
Proof.
  intros Hwk. unfold save_domain, save_failed.
  destruct (find_one_outcome e); [|done].
  destruct (collection st !! domain) as [existing|] eqn:Hex;
    (destruct (write_outcome e); [|done]); intros k r; simpl;
    (destruct (decide (domain = k)) as [->|Hne];
      [rewrite lookup_insert_eq; intros [= <-]; simpl
      |rewrite lookup_insert_ne by done; apply Hwk]).
  - by apply Hwk.
  - done.
Qed.

Lemma save_domain_dom e domain subs ti icn ln cid st :
  dom (collection st) ⊆ dom (collection (snd (save_domain e domain subs ti icn ln cid st))).
Proof.
  unfold save_domain, save_failed.
  destruct (find_one_outcome e); [|done].
  destruct (collection st !! domain), (write_outcome e); simpl; try done;
    rewrite dom_insert_L; apply union_subseteq_r.
Qed.

End SaveProperties.

(** ** One event *)

Section EventProperties.
Context {datetime : Type}.
Variable cfg : Config.
Variable fromtimestamp : Q → option datetime.
Implicit Types (st : State datetime) (env : string → SaveEnv datetime).
Implicit Types (data : CertEvent datetime).

Lemma save_all_grows env data batch : ∀ st d,
  subdomains_of st d ⊆ subdomains_of (save_all env data batch st) d.
Proof.
  induction batch as [|[k subs] batch IH]; intros st d; [done|].
  cbn [save_all].
  pose proof (save_domain_grows (env k) k subs (time_issued data)
                (issuer_cn data) (log_name data) (cert_id data) st d) as Hg.
  destruct (save_domain _ _ _ _ _ _ _ st) as [ok st1]. simpl in Hg.
  etrans; [exact Hg|]. apply (IH (print _ st1)).
Qed.

Lemma save_all_dom env data batch : ∀ st,
  dom (collection st) ⊆ dom (collection (save_all env data batch st)).
Proof.
  induction batch as [|[k subs] batch IH]; intros st; [done|].
  cbn [save_all].
  pose proof (save_domain_dom (env k) k subs (time_issued data)
                (issuer_cn data) (log_name data) (cert_id data) st) as Hg.
  destruct (save_domain _ _ _ _ _ _ _ st) as [ok st1]. simpl in Hg.
  etrans; [exact Hg|]. apply (IH (print _ st1)).
Qed.

Lemma save_all_well_keyed env data batch : ∀ st,
  well_keyed st → well_keyed (save_all env data batch st).
Proof.
  induction batch as [|[k subs] batch IH]; intros st Hwk; [done|].
  cbn [save_all].
  pose proof (save_domain_well_keyed (env k) k subs (time_issued data)
                (issuer_cn data) (log_name data) (cert_id data) st Hwk) as Hg.
  destruct (save_domain _ _ _ _ _ _ _ st) as [ok st1]. simpl in Hg.
  by apply IH.
Qed.

Lemma save_all_untouched env data batch k : ∀ st,
  k ∉ batch.*1 → collection (save_all env data batch st) !! k = collection st !! k.
Proof.
  induction batch as [|[b subs] batch IH]; intros st Hk; [done|].
  cbn [save_all]. rewrite fmap_cons in Hk. apply not_elem_of_cons in Hk as [Hne Hk].
  pose proof (save_domain_frame (env b) b subs (time_issued data)
                (issuer_cn data) (log_name data) (cert_id data) st k) as Hframe.
  destruct (save_domain _ _ _ _ _ _ _ st) as [ok st1]. simpl in Hframe.
  rewrite (IH (print _ st1) Hk). simpl. apply Hframe. exact Hne.
Qed.

Lemma save_all_merges env data batch b subs : ∀ st,
  (b, subs) ∈ batch → failure_of (env b) = None →
  merged data b (subdomains_of st b ∪ list_to_set subs) (save_all env data batch st).
Proof.
  induction batch as [|[k subs'] batch IH]; intros st Hin Hok.
  { by apply elem_of_nil in Hin. }
  cbn [save_all].
  apply elem_of_cons in Hin as [[= <- <-]|Hin].
  - pose proof (save_domain_merges (env b) data b subs st Hok) as Hm.
    destruct (save_domain _ _ _ _ _ _ _ st) as [ok st1].
    by apply save_all_keeps_merged.
  - pose proof (save_domain_grows (env k) k subs' (time_issued data)
                  (issuer_cn data) (log_name data) (cert_id data) st b) as Hg.
    destruct (save_domain _ _ _ _ _ _ _ st) as [ok st1]. simpl in Hg.
    destruct (IH (print (saved_line k subs') st1) Hin Hok) as (r & Hr & HS & Hmeta).
    exists r. split; [done|]. split; [|done].
    change (subdomains_of (print _ st1) b) with (subdomains_of st1 b) in HS.
    etrans; [|exact HS]. by apply union_mono_r.
Qed.

Lemma save_all_saved_line env data batch b subs : ∀ st,
  (b, subs) ∈ batch → saved_line b subs ∈ stdout (save_all env data batch st).
Proof.
  induction batch as [|[k subs'] batch IH]; intros st Hin.
  { by apply elem_of_nil in Hin. }
  cbn [save_all].
  destruct (save_domain _ _ _ _ _ _ _ st) as [ok st1].
  apply elem_of_cons in Hin as [[= <- <-]|Hin]; [|by apply IH].
  apply save_all_keeps_stdout. simpl. apply elem_of_app. right. left.
Qed.

(** X8. A message whose [message_type] is missing or is not
    [certificate_update] is dropped: the callback returns normally and
    neither the index nor the output changes. *)
Theorem other_message_ignored now env (kv : list (string * json)) st :
  Py.assoc "message_type" kv ≠ Some (JStr "certificate_update") →
  process_certificate cfg fromtimestamp now env (JObj kv) st = (Return (), st).
Proof.
  intros Hmt. unfold process_certificate, filtered_batch. simpl.
  destruct (Py.assoc "message_type" kv) as [[| | | |s| |]|]; simpl; try done.
  case_bool_decide as Hs; [by subst s|done].
Qed.

(** X9. Whatever the message and whatever the store answers, the
    callback never deletes a record, never removes a subdomain from
    one, keeps every document filed under its own domain, leaves the
    record of every domain that is not a base domain of the batch as it
    was, and, when it raises, has saved and printed nothing. *)
Theorem process_certificate_preserves now env message st :
  let res := process_certificate cfg fromtimestamp now env message st in
  dom (collection st) ⊆ dom (collection (snd res))
  ∧ (∀ d, subdomains_of st d ⊆ subdomains_of (snd res) d)
  ∧ (well_keyed st → well_keyed (snd res))
  ∧ (∀ k, (∀ data vd,
             filtered_batch cfg fromtimestamp now message = Return (Some (data, vd)) →
             k ∉ vd.*1) →
          collection (snd res) !! k = collection st !! k)
  ∧ (∀ e, fst res = Raise e → snd res = st).
Proof.
  cbn zeta. unfold process_certificate.
  destruct (filtered_batch cfg fromtimestamp now message) as [[[data vd]|]|e]; simpl;
    try done.
  split; [apply save_all_dom|]. split; [intros d; apply save_all_grows|].
  split; [apply save_all_well_keyed|]. split; [|done].
  intros k Hk. apply save_all_untouched. by apply (Hk data vd).
Qed.

(** X10. On a store that works for the base domain of a name, every
    name of a processed event that survives the filter is in the index
    afterwards: its base domain has a record that carries the metadata
    of the event, keeps the subdomains it had, and lists the cleaned
    name unless the name is the base itself. *)
Theorem surviving_name_recorded now env message data vd st raw :
  filtered_batch cfg fromtimestamp now message = Return (Some (data, vd)) →
  (∃ items, Py.iter (domain_names data) = Return items ∧ JStr raw ∈ items) →
  _is_target_domain cfg (_clean_domain raw) = true →
  failure_of (env (_extract_base_domain cfg (_clean_domain raw))) = None →
  ∃ r, collection (snd (process_certificate cfg fromtimestamp now env message st))
         !! _extract_base_domain cfg (_clean_domain raw) = Some r
       ∧ (_clean_domain raw ≠ _extract_base_domain cfg (_clean_domain raw) →
          _clean_domain raw ∈ doc_subdomains r)
       ∧ subdomains_of st (_extract_base_domain cfg (_clean_domain raw))
           ⊆ doc_subdomains r
       ∧ doc_time_issued r = time_issued data
       ∧ doc_issuer_cn r = issuer_cn data
       ∧ doc_log_name r = log_name data
       ∧ doc_cert_id r = cert_id data.
Proof.
  intros Hfb (items & Hiter & Hraw) Ht Hok.
  destruct (filtered_batch_inv cfg fromtimestamp now message data vd Hfb)
    as (items' & Hiter' & Hcoll).
  rewrite Hiter in Hiter'. injection Hiter' as <-.
  destruct (collect_contents cfg items (λ _, False) [] vd Hcoll) as (_ & _ & Hc).
  { apply NoDup_nil_2. }
  { by intros b subs ?%elem_of_nil. }
  { by intros r []. }
  destruct (Hc raw (or_intror Hraw) Ht) as (subs & Hin & Hsubs).
  unfold process_certificate. rewrite Hfb. simpl.
  destruct (save_all_merges env data vd _ subs st Hin Hok) as (r & Hr & HS & Hmeta).
  exists r. split; [done|]. split; [|split; [|done]].
  - intros Hne. apply HS, elem_of_union_r, elem_of_list_to_set. by apply Hsubs.
  - etrans; [|exact HS]. apply union_subseteq_l.
Qed.

(** X11. The line [[+] Saved] is printed for every entry of the batch,
    also for one whose save failed: the result of [save_domain] is not
    looked at, so the output then holds both the error line and the
    line that reports the save. *)
Theorem saved_line_printed_regardless env data (batch : Dict.t) st b subs :
  (b, subs) ∈ batch →
  saved_line b subs ∈ stdout (save_all env data batch st)
  ∧ (∀ msg, failure_of (env b) = Some msg →
       ∃ i j, stdout (save_all env data batch st) !! i = Some (error_line b msg)
              ∧ stdout (save_all env data batch st) !! j = Some (saved_line b subs)).
Proof.
  intros Hin. split; [by apply save_all_saved_line|].
  intros msg Hfail.
  assert (error_line b msg ∈ stdout (save_all env data batch st)) as He.
  { clear -Hin Hfail. revert st.
    induction batch as [|[k subs'] batch IH]; intros st.
    { by apply elem_of_nil in Hin. }
    cbn [save_all].
    apply elem_of_cons in Hin as [[= <- <-]|Hin].
    - pose proof (save_domain_failure (env b) b subs (time_issued data)
                    (issuer_cn data) (log_name data) (cert_id data) st msg Hfail) as Hs.
      destruct (save_domain _ _ _ _ _ _ _ st) as [ok st1]. simpl in Hs. subst st1.
      apply save_all_keeps_stdout. simpl.
      apply elem_of_app; left. apply elem_of_app; right. left.
    - destruct (save_domain _ _ _ _ _ _ _ st) as [ok st1]. by apply IH. }
  apply list_elem_of_lookup in He as (i & Hi).
  pose proof (save_all_saved_line env data batch b subs st Hin) as Hs.
  apply list_elem_of_lookup in Hs as (j & Hj). eauto.
Qed.

End EventProperties.

Lemma batch_contents_witness :
  NoDup [("example.co.il", ["mail.example.co.il"])].*1
  ∧ batch_sound cfg_co_il
      (λ raw, JStr raw ∈ [JStr "*.mail.example.co.il"; JStr "example.co.il"])
      [("example.co.il", ["mail.example.co.il"])]
  ∧ batch_complete cfg_co_il
      (λ raw, JStr raw ∈ [JStr "*.mail.example.co.il"; JStr "example.co.il"])
      [("example.co.il", ["mail.example.co.il"])].
Proof.
  apply (batch_contents cfg_co_il [JStr "*.mail.example.co.il"; JStr "example.co.il"]).
  reflexivity.
Defined.

Lemma collect_needs_strings_witness :
  collect cfg_co_il [] [JStr "example.co.il"; JNull] = Raise AttributeError.
Proof.
  apply (proj2 (collect_needs_strings cfg_co_il [JStr "example.co.il"; JNull] [])).
  reflexivity.
Defined.

Lemma other_message_ignored_witness :
  process_certificate cfg_co_il (λ q, Some q) 0%Q (λ _, working 0%Q) heartbeat empty_index
  = (Return (), empty_index).
Proof.
  apply (other_message_ignored cfg_co_il (λ q, Some q) 0%Q (λ _, working 0%Q)
           [("message_type", JStr "heartbeat")] empty_index).
  discriminate.
Defined.

Lemma surviving_name_recorded_witness :
  ∃ r, collection
         (snd (process_certificate cfg_co_il (λ q, Some q) 0%Q (λ _, working 0%Q)
                 (event_names ["*.mail.example.co.il"; "example.co.il"]) empty_index))
         !! "example.co.il" = Some r
       ∧ "mail.example.co.il" ∈ doc_subdomains r.
Proof.
  destruct (surviving_name_recorded cfg_co_il (λ q, Some q) 0%Q (λ _, working 0%Q)
              (event_names ["*.mail.example.co.il"; "example.co.il"])
              (names_only 0%Q ["*.mail.example.co.il"; "example.co.il"])
              [("example.co.il", ["mail.example.co.il"])]
              empty_index "*.mail.example.co.il")
    as (r & Hr & Hsub & _).
  - reflexivity.
  - eexists. split; [reflexivity|]. apply list_elem_of_here.
  - reflexivity.
  - reflexivity.
  - exists r. split; [exact Hr|]. apply Hsub. discriminate.
Defined.

Lemma saved_line_printed_regardless_witness :
  saved_line "a.co.il" []
    ∈ stdout (save_all env_a_down (names_only 0%Q []) [("a.co.il", [])] empty_index).
Proof.
  apply (proj1 (saved_line_printed_regardless env_a_down (names_only 0%Q [])
                  [("a.co.il", [])] empty_index "a.co.il" []
                  (list_elem_of_here _ _))).
Defined.

(** ** The normalizer on well-shaped events *)

Section WellShapedEvents.
Context {datetime : Type}.
Variable fromtimestamp : Q → option datetime.

Lemma issuer_of_ok (d : list (string * json)) :
  chain_ok (Py.assoc "chain" d) = true →
  issuer_of (JObj d) = Return (issuer_value (Py.assoc "chain" d)).
Proof.
  unfold issuer_of, chain_ok, issuer_value. simpl.
  destruct (Py.assoc "chain" d) as [[|[]|z|q r|s|[|[| | | | | |first] l]|kv]|]; simpl;
    try done.
  - destruct (z =? 0)%Z; simpl; done.
  - destruct (Qeq_bool q 0); simpl; done.
  - destruct (bool_decide (s = "")); simpl; done.
  - destruct (Py.assoc "subject" first) as [[| | | | | |subject]|]; simpl; done.
  - destruct (bool_decide (kv = [])); simpl; done.
Qed.

Lemma log_name_of_ok (d : list (string * json)) :
  seen_in_ok (Py.assoc "seen_in" d) = true →
  log_name_of (JObj d) = Return (log_name_value (Py.assoc "seen_in" d)).
Proof.
  unfold log_name_of, seen_in_ok, log_name_value. simpl.
  by destruct (Py.assoc "seen_in" d) as [[| | | | |[|[| | | | | |first] l]|]|].
Qed.

(** X12. On an event of the shape the feed documents, with each
    optional field present or missing, the normalizer does not raise:
    it returns the names (an empty list when missing), the issuance
    time of [not_before], the common name of the first chain entry, the
    name of the first log entry and the serial, with ['N/A'] wherever
    the field is missing. *)
Theorem format_message_well_shaped now (m d c : list (string * json)) :
  default (JObj []) (Py.assoc "data" m) = JObj d →
  default (JObj []) (Py.assoc "leaf_cert" d) = JObj c →
  chain_ok (Py.assoc "chain" d) = true →
  seen_in_ok (Py.assoc "seen_in" d) = true →
  _format_message fromtimestamp now (JObj m) =
    Return {| domain_names := default (JList []) (Py.assoc "all_domains" c);
              time_issued :=
                issued_time fromtimestamp now (default JNull (Py.assoc "not_before" c));
              issuer_cn := issuer_value (Py.assoc "chain" d);
              log_name := log_name_value (Py.assoc "seen_in" d);
              cert_id := default (JStr "N/A") (Py.assoc "serial_number" c) |}.
Proof.
  intros Hd Hc Hchain Hseen. unfold _format_message.
  cbn [Py.get mbind exc_bind]. rewrite Hd.
  cbn [Py.get mbind exc_bind]. rewrite Hc.
  cbn [Py.get mbind exc_bind].
  rewrite (issuer_of_ok d Hchain). cbn [mbind exc_bind].
  rewrite (log_name_of_ok d Hseen). reflexivity.
Qed.




End WellShapedEvents.

Lemma format_message_well_shaped_witness :
  _format_message (λ q, Some q) 5%Q (event_not_before (JInt 1700000000))
  = Return {| domain_names := JList [JStr "example.co.il"];
              time_issued := inject_Z 1700000000;
              issuer_cn := JStr "N/A";
              log_name := JStr "N/A";
              cert_id := JStr "N/A" |}.
Proof.
  apply (format_message_well_shaped (λ q, Some q) 5%Q
           [("message_type", JStr "certificate_update");
            ("data", JObj [("leaf_cert", JObj [("all_domains", JList [JStr "example.co.il"]);
                                               ("not_before", JInt 1700000000)])])]
           [("leaf_cert", JObj [("all_domains", JList [JStr "example.co.il"]);
                                ("not_before", JInt 1700000000)])]
           [("all_domains", JList [JStr "example.co.il"]);
            ("not_before", JInt 1700000000)]);
    reflexivity.
Defined.


(** ** The read service *)

Section ReadProperties.
Context {datetime : Type}.
Variable isoformat : datetime → string.
Variable dt_leb : datetime → datetime → bool.

Lemma insert_desc_perm (d : DomainRecord datetime) l :
  insert_desc dt_leb d l ≡ₚ d :: l.
Proof.
  induction l as [|x l IH]; simpl; [done|].
  destruct (dt_leb _ _); [done|]. rewrite IH. apply Permutation_swap.
Qed.

Lemma sort_desc_perm (l : list (DomainRecord datetime)) : sort_desc dt_leb l ≡ₚ l.
Proof.
  induction l as [|x l IH]; simpl; [done|].
  rewrite insert_desc_perm. by rewrite IH.
Qed.

(** X14. When the scan succeeds, [GET /api/domains] answers 200 with
    [success: true], one rendered document per record of the index, a
    permutation of the records, and their number as [count]; the read
    changes neither the index nor the output. *)
Theorem get_domains_success (st : State datetime) :
  ∃ docs,
    get_domains isoformat dt_leb Done st =
      ({| status := 200;
          body := JObj [("success", JBool true);
                        ("count", JInt (Z.of_nat (size (collection st))));
                        ("data", JList (render isoformat <$> docs))] |}, st)
    ∧ docs ≡ₚ (map_to_list (collection st)).*2.
Proof.
  exists (sort_desc dt_leb ((map_to_list (collection st)).*2)).
  split; [|apply sort_desc_perm].
  unfold get_domains, get_all_domains. cbn [Py.len].
  by rewrite length_fmap, (Permutation_length (sort_desc_perm _)), length_fmap,
    length_map_to_list.
Qed.

Hypothesis dt_leb_total : ∀ a b, dt_leb a b = true ∨ dt_leb b a = true.

Lemma insert_desc_hd a d l :
  newest_first dt_leb a d → HdRel (newest_first dt_leb) a l →
  HdRel (newest_first dt_leb) a (insert_desc dt_leb d l).
Proof.
  intros Had Hal. destruct l as [|x l]; simpl; [by constructor|].
  destruct (dt_leb _ _); constructor; [done|]. by inversion Hal.
Qed.

Lemma insert_desc_sorted d l :
  Sorted (newest_first dt_leb) l → Sorted (newest_first dt_leb) (insert_desc dt_leb d l).
Proof.
  induction 1 as [|x l Hs IH Hhd]; simpl; [by repeat constructor|].
  destruct (dt_leb (doc_time_issued x) (doc_time_issued d)) eqn:Hxd.
  - constructor; [by constructor|]. by constructor.
  - constructor; [done|]. apply insert_desc_hd; [|done].
    unfold newest_first. destruct (dt_leb_total (doc_time_issued d) (doc_time_issued x));
      [done|congruence].
Qed.

(** X15. For a total order on the issuance times, the documents of the
    answer come most recently issued first. *)
Theorem get_all_domains_newest_first (st : State datetime) :
  ∃ docs,
    fst (get_all_domains isoformat dt_leb Done st) = JList (render isoformat <$> docs)
    ∧ docs ≡ₚ (map_to_list (collection st)).*2
    ∧ Sorted (newest_first dt_leb) docs.
Proof.
  exists (sort_desc dt_leb ((map_to_list (collection st)).*2)).
  split; [reflexivity|]. split; [apply sort_desc_perm|].
  induction ((map_to_list (collection st)).*2) as [|x l IH]; simpl; [constructor|].
  by apply insert_desc_sorted.
Qed.

End ReadProperties.

Lemma get_all_domains_newest_first_witness :
  ∃ docs,
    fst (get_all_domains (λ _ : Q, "t") Qle_bool Done two_records)
    = JList (render (λ _ : Q, "t") <$> docs)
    ∧ docs ≡ₚ (map_to_list (collection two_records)).*2
    ∧ Sorted (newest_first Qle_bool) docs.
Proof.
  apply (get_all_domains_newest_first (λ _ : Q, "t") Qle_bool).
  intros a b. destruct (Qlt_le_dec a b) as [H|H].
  - left. apply Qle_bool_iff, Qlt_le_weak, H.
  - right. apply Qle_bool_iff, H.
Defined.

Example two_records_answer :
  (doc_domain <$> sort_desc Qle_bool ((map_to_list (collection two_records)).*2))
  = ["b.co.il"; "a.co.il"].
Proof. vm_compute. reflexivity. Qed.

(** ** Containers that are present but are not objects *)

Section NullContainers.
Context {datetime : Type}.
Variable fromtimestamp : Q → option datetime.

(** X16. The defaults of [data] and [leaf_cert] apply to a missing key
    only: when either key is present with a value that is not an
    object, [null] included, the normalizer raises [AttributeError]. *)
Theorem present_non_object_raises now (m : list (string * json)) (v : json) :
  is_obj v = false →
  (Py.assoc "data" m = Some v →
     _format_message fromtimestamp now (JObj m) = Raise AttributeError)
  ∧ (∀ d, default (JObj []) (Py.assoc "data" m) = JObj d →
          Py.assoc "leaf_cert" d = Some v →
          _format_message fromtimestamp now (JObj m) = Raise AttributeError).
Proof.
  intros Hv. split.
  - intros Hd. unfold _format_message. cbn [Py.get mbind exc_bind]. rewrite Hd.
    by destruct v.
  - intros d Hd Hc. unfold _format_message. cbn [Py.get mbind exc_bind].
    rewrite Hd. cbn [Py.get mbind exc_bind]. rewrite Hc. by destruct v.
Qed.

End NullContainers.

Lemma present_non_object_raises_witness :
  _format_message (λ q, Some q) 0%Q
    (JObj [("message_type", JStr "certificate_update"); ("data", JNull)])
  = Raise AttributeError.
Proof.
  apply (proj1 (present_non_object_raises (λ q, Some q) 0%Q
                  [("message_type", JStr "certificate_update"); ("data", JNull)]
                  JNull eq_refl)).
  reflexivity.
Defined.
